(** * Expense Request Assistant (app.py): dialogue state machine and field extractors

    A shallow embedding of [extract_project_info], [extract_amount],
    [process_request], [display_summary], [save_request] and [add_message]
    of app.py, together with the fragment of Python's [re] module and of
    [str] that these functions rely on.

    Python strings are sequences of Unicode code points: a character is a
    code point in [N] and a string a list of them.  The ASCII part of the
    character classes is written out; what the Unicode character database
    says about the code points from 128 on is taken as given, through the
    class [Runtime], so that the statements hold whatever those tables are
    (one of them under a condition on the tables that is written in it).
    [str.lower] is taken code point by code point, without the rule for the
    final sigma.  A small excerpt of the real tables ([excerpt]) is used to
    run the functions on concrete inputs.

    The store is the list of the rows of the table [requests]; a write that
    sqlite3 refuses raises and leaves the list as it is. *)

From Stdlib Require Import String Ascii List Bool NArith ZArith QArith Lia.
Import ListNotations.

Local Open Scope N_scope.
Local Open Scope list_scope.

(** ** Strings *)

Definition char := N.
Definition pystr := list char.

(** Code points of a UTF-8 encoded source literal. *)
Fixpoint utf8_decode (bs : list N) : pystr :=
  match bs with
  | [] => []
  | b0 :: r0 =>
    if b0 <? 128 then b0 :: utf8_decode r0
    else match r0 with
    | [] => [b0]
    | b1 :: r1 =>
      if b0 <? 224 then ((b0 - 192) * 64 + (b1 - 128)) :: utf8_decode r1
      else match r1 with
      | [] => [b0; b1]
      | b2 :: r2 =>
        if b0 <? 240
        then ((b0 - 224) * 4096 + (b1 - 128) * 64 + (b2 - 128)) :: utf8_decode r2
        else match r2 with
        | [] => [b0; b1; b2]
        | b3 :: r3 =>
          ((b0 - 240) * 262144 + (b1 - 128) * 4096 + (b2 - 128) * 64 + (b3 - 128))
            :: utf8_decode r3
        end
      end
    end
  end.

Definition py (s : string) : pystr :=
  utf8_decode (map N_of_ascii (list_ascii_of_string s)).

Definition pystr_eqb (a b : pystr) : bool :=
  if list_eq_dec N.eq_dec a b then true else false.

(** [prefix in text] at the current position. *)
Fixpoint starts_with (p s : pystr) : bool :=
  match p, s with
  | [], _ => true
  | _ :: _, [] => false
  | a :: p', b :: s' => (a =? b) && starts_with p' s'
  end.

(** [p in s] for strings: substring test. *)
Fixpoint contains (p s : pystr) : bool :=
  starts_with p s ||
  match s with
  | [] => false
  | _ :: s' => contains p s'
  end.

(** ** Characters *)

Definition in_range (lo hi c : char) : bool := (lo <=? c) && (c <=? hi).

Definition ascii_isdigit (c : char) : bool := in_range 48 57 c.
Definition ascii_isupper (c : char) : bool := in_range 65 90 c.
Definition ascii_islower (c : char) : bool := in_range 97 122 c.
Definition ascii_isalnum (c : char) : bool :=
  ascii_isdigit c || ascii_isupper c || ascii_islower c.
Definition ascii_lower (c : char) : char :=
  if ascii_isupper c then c + 32 else c.

(** [str.isspace] below 128: TAB..CR, FS..US and the space. *)
Definition ascii_isspace (c : char) : bool :=
  in_range 9 13 c || in_range 28 32 c.

(** What is taken from the Python runtime: the Unicode tables for the code
    points from 128 on, and the text [str(x)] of a float [x]. *)
Class Runtime := {
  (** category Nd: what [\d] matches and [float] accepts as a digit *)
  uni_isdecimal : char -> bool;
  (** the digit's value, 0 to 9 *)
  uni_decimal_value : char -> N;
  (** alphanumeric: what [\w] matches besides the underscore *)
  uni_isalnum : char -> bool;
  (** [str.isspace], also what [\s] matches *)
  uni_isspace : char -> bool;
  (** lower-case mapping of one code point; it may give several *)
  uni_lower : char -> pystr;
  (** what [re.IGNORECASE] compares instead of the code point: its lower
      case, the few code points that [re] holds equivalent being sent to
      one of them *)
  uni_fold : char -> char;
  (** [str(x)] for a float [x] *)
  float_str : Q -> pystr
}.

Section Chars.
Context {rt : Runtime}.

Definition isdecimal (c : char) : bool :=
  if c <? 128 then ascii_isdigit c else uni_isdecimal c.

Definition decimal_value (c : char) : N :=
  if c <? 128 then c - 48 else uni_decimal_value c.

Definition isspace (c : char) : bool :=
  if c <? 128 then ascii_isspace c else uni_isspace c.

(** [\w]: alphanumeric or underscore. *)
Definition isword (c : char) : bool :=
  if c <? 128 then ascii_isalnum c || (c =? 95) else uni_isalnum c.

Definition lower_char (c : char) : pystr :=
  if c <? 128 then [ascii_lower c] else uni_lower c.

(** [str.lower], code point by code point.  [str.lower] does the same
    except for GREEK CAPITAL LETTER SIGMA (U+03A3), whose lower case it
    chooses by the letters around it; the statements that say which text is
    stored are made for the texts without this letter. *)
Definition lower (s : pystr) : pystr := flat_map lower_char s.

Definition fold_case (c : char) : char :=
  if c <? 128 then ascii_lower c else uni_fold c.

(** [str.split()] with no argument: the maximal runs of non-space
    characters.  [cur] is the token being read, reversed. *)
Fixpoint split_aux (cur : pystr) (s : pystr) : list pystr :=
  match s with
  | [] => match cur with [] => [] | _ => [rev cur] end
  | c :: s' =>
    if isspace c
    then match cur with
         | [] => split_aux [] s'
         | _ => rev cur :: split_aux [] s'
         end
    else split_aux (c :: cur) s'
  end.

Definition split (s : pystr) : list pystr := split_aux [] s.

End Chars.

(** ** Regular expressions: the fragment of [re] the patterns use

    Python's [re] is a backtracking matcher: alternatives are tried from
    left to right, [?], [+], [*] and [{m,n}] are greedy, and [re.search]
    returns the match found at the leftmost position where there is one.
    The matcher below is written in continuation-passing style, which gives
    exactly this order; a continuation that answers [None] makes the matcher
    backtrack. *)

(** What matches a single character. *)
Inductive atom :=
| ADigit                               (* \d *)
| ASpace                               (* \s *)
| AChar (c : char)                     (* a literal character *)
| ASet (ranges : list (char * char)).  (* [...] as a list of ranges *)

Inductive regex :=
| Eps
| Atom (a : atom)
| Bnd                                          (* \b *)
| Seq (r1 r2 : regex)
| Alt (r1 r2 : regex)                          (* r1|r2 *)
| Opt (r : regex)                              (* r? *)
| Rep (a : atom) (lo : nat) (hi : option nat)  (* a{lo,hi}, a+, a* *)
| Grp (n : nat) (r : regex).                   (* capturing group n *)

(** A literal word, character by character. *)
Definition lit_re (w : pystr) : regex :=
  fold_right (fun c r => Seq (Atom (AChar c)) r) Eps w.

Definition lit (s : string) : regex := lit_re (py s).

(** Captured groups, the most recent capture first. *)
Definition caps := list (nat * pystr).

Fixpoint cap_lookup (n : nat) (g : caps) : option pystr :=
  match g with
  | [] => None
  | (k, v) :: g' => if Nat.eqb k n then Some v else cap_lookup n g'
  end.

(** The text between the position [s] and the later position [s']. *)
Definition consumed (s s' : pystr) : pystr :=
  firstn (length s - length s') s.

Definition in_ranges (c : char) (rs : list (char * char)) : bool :=
  existsb (fun r => in_range (fst r) (snd r) c) rs.

Definition ascii_upper (c : char) : char :=
  if ascii_islower c then c - 32 else c.

Section Regex.
Context {rt : Runtime}.

(** Whether a character of a pattern has two cases: the ASCII letters do,
    the other ASCII characters do not. *)
Definition iscased (p : char) : bool :=
  if p <? 128 then ascii_isupper p || ascii_islower p else true.

(** [ic] is the flag [re.IGNORECASE]; it changes nothing for [\d], [\s]
    and the literal characters that have one case only. *)
Definition atom_match (ic : bool) (a : atom) (c : char) : bool :=
  match a with
  | ADigit => isdecimal c
  | ASpace => isspace c
  | AChar p => if ic && iscased p then fold_case c =? fold_case p else c =? p
  | ASet rs =>
    in_ranges c rs ||
    (ic && (in_ranges (fold_case c) rs || in_ranges (ascii_upper (fold_case c)) rs))
  end.

Definition opt_isword (c : option char) : bool :=
  match c with
  | Some c => isword c
  | None => false
  end.

(** [\b]: exactly one of the characters before and after the position is a
    word character; the ends of the text count as non-word. *)
Definition at_boundary (prev : option char) (s : pystr) : bool :=
  xorb (opt_isword prev) (opt_isword (hd_error s)).

Definition below (hi : option nat) : bool :=
  match hi with
  | Some 0%nat => false
  | _ => true
  end.

Definition dec (hi : option nat) : option nat :=
  match hi with
  | Some n => Some (Nat.pred n)
  | None => None
  end.

Section Matcher.
Variable R : Type.
Variable ic : bool.

(** Greedy repetition of an atom: first one more character, then, if the
    rest fails, stop here (when [lo] repetitions were made). *)
Fixpoint rep (a : atom) (lo : nat) (hi : option nat) (prev : option char) (s : pystr)
    (k : option char -> pystr -> option R) {struct s} : option R :=
  let stop := match lo with 0%nat => k prev s | _ => None end in
  match s with
  | c :: s' =>
    if below hi && atom_match ic a c
    then match rep a (Nat.pred lo) (dec hi) (Some c) s' k with
         | Some x => Some x
         | None => stop
         end
    else stop
  | [] => stop
  end.

(** [mt r prev s g k]: match [r] at the position whose previous character
    is [prev] and whose remaining text is [s], with the groups [g] captured
    so far, then go on with [k]. *)
Fixpoint mt (r : regex) (prev : option char) (s : pystr) (g : caps)
    (k : option char -> pystr -> caps -> option R) {struct r} : option R :=
  match r with
  | Eps => k prev s g
  | Atom a =>
    match s with
    | c :: s' => if atom_match ic a c then k (Some c) s' g else None
    | [] => None
    end
  | Bnd => if at_boundary prev s then k prev s g else None
  | Seq r1 r2 => mt r1 prev s g (fun p' s' g' => mt r2 p' s' g' k)
  | Alt r1 r2 =>
    match mt r1 prev s g k with
    | Some x => Some x
    | None => mt r2 prev s g k
    end
  | Opt r1 =>
    match mt r1 prev s g k with
    | Some x => Some x
    | None => k prev s g
    end
  | Rep a lo hi => rep a lo hi prev s (fun p' s' => k p' s' g)
  | Grp n r1 => mt r1 prev s g (fun p' s' g' => k p' s' ((n, consumed s s') :: g'))
  end.

End Matcher.

(** A match object: where the match starts, [group(0)] and the groups. *)
Record rmatch := {
  m_start : nat;
  m_text : pystr;
  m_groups : caps
}.

(** [m.group(n)] for [n >= 1]: [None] when the group took no part. *)
Definition group (n : nat) (m : rmatch) : option pystr :=
  cap_lookup n (m_groups m).

Definition match_here (ic : bool) (r : regex) (i : nat) (prev : option char) (s : pystr)
  : option rmatch :=
  mt rmatch ic r prev s []
     (fun _ s' g => Some {| m_start := i; m_text := consumed s s'; m_groups := g |}).

(** [re.search]: the start positions from left to right, the end of the
    text included. *)
Fixpoint search_from (ic : bool) (r : regex) (i : nat) (prev : option char) (s : pystr)
  : option rmatch :=
  match match_here ic r i prev s with
  | Some m => Some m
  | None =>
    match s with
    | [] => None
    | c :: s' => search_from ic r (S i) (Some c) s'
    end
  end.

Definition search (ic : bool) (r : regex) (s : pystr) : option rmatch :=
  search_from ic r 0 None s.

End Regex.

(** ** Exceptions and floats *)

Inductive exn :=
| ValueError         (* float() on a text that is no number *)
| TypeError          (* float(None) *)
| OperationalError.  (* sqlite3: the write did not go through *)

(** The result of a call: a value, or an exception raised. *)
Inductive res (A : Type) :=
| Ok (a : A)
| Raise (e : exn).
Arguments Ok {A} a.
Arguments Raise {A} e.

Local Open Scope Q_scope.

(** A float is modelled by the decimal number its literal denotes (the
    nearest double is not computed); such a float is [0.0] exactly when the
    decimal is zero, which is all that [if amount:] looks at. *)
Definition float_truthy (x : Q) : bool := negb (Qeq_bool x 0).

Local Close Scope Q_scope.

Section Float.
Context {rt : Runtime}.

(** The value of a run of decimal digits; [None] when a character is not a
    decimal digit. *)
Fixpoint digits_value (acc : N) (s : pystr) : option N :=
  match s with
  | [] => Some acc
  | c :: s' =>
    if isdecimal c then digits_value (acc * 10 + decimal_value c) s' else None
  end.

(** The text before the first full stop, and the text after it if there is
    one. *)
Fixpoint split_dot (s : pystr) : pystr * option pystr :=
  match s with
  | [] => ([], None)
  | c :: s' =>
    if c =? 46 then ([], Some s')
    else let (a, b) := split_dot s' in (c :: a, b)
  end.

(** [float(s)] on the literals [digits], [digits.digits], [digits.] and
    [.digits]; signs, exponents, underscores, blanks, [inf] and [nan], which
    [float] also accepts, are left out and raise here.  The result is the
    decimal that the literal denotes.  It is the float itself when the
    decimal is a double (an integer up to 2^53, or a decimal such as 12.5)
    and stands for the nearest double otherwise; the statements that give
    the value of an amount are made for the former. *)
Definition py_float (s : pystr) : res Q :=
  let (ip, fp) := split_dot s in
  let fr := match fp with Some f => f | None => [] end in
  match ip ++ fr with
  | [] => Raise ValueError
  | _ =>
    match digits_value 0 (ip ++ fr) with
    | Some n => Ok (Qred (Z.of_N n # Z.to_pos (10 ^ Z.of_nat (length fr))))
    | None => Raise ValueError
    end
  end.

(** [float(x)] where [x] may be [None]. *)
Definition py_float_opt (x : option pystr) : res Q :=
  match x with
  | Some s => py_float s
  | None => Raise TypeError
  end.

End Float.

(** Truth value of an optional string: [None] and the empty string are
    false. *)
Definition truthy (x : option pystr) : bool :=
  match x with
  | Some (_ :: _) => true
  | _ => false
  end.

(** ** Field extractors *)

(** [\b(?:PRJ-|P)?\d{1,}\b] *)
Definition project_number_re : regex :=
  Seq Bnd
  (Seq (Opt (Alt (lit "PRJ-") (lit "P")))
  (Seq (Rep ADigit 1 None)
       Bnd)).

(** [[a-zA-Z0-9_\-]] *)
Definition name_class : atom :=
  ASet [(97, 122); (65, 90); (48, 57); (95, 95); (45, 45)].

(** [(?:project\s+)?([a-zA-Z0-9_\-]+)] *)
Definition project_name_re : regex :=
  Seq (Opt (Seq (lit "project") (Rep ASpace 1 None)))
      (Grp 1 (Rep name_class 1 None)).

(** [USD|EUR|GBP|dollars|euros|pounds] *)
Definition currency_re : regex :=
  Alt (lit "USD") (Alt (lit "EUR") (Alt (lit "GBP")
  (Alt (lit "dollars") (Alt (lit "euros") (lit "pounds"))))).

(** [\d+(?:\.\d{1,2})?] *)
Definition number_re : regex :=
  Seq (Rep ADigit 1 None) (Opt (Seq (Atom (AChar 46)) (Rep ADigit 1 (Some 2%nat)))).

(** [\b(\d+(?:\.\d{1,2})?)\s*(USD|EUR|GBP|dollars|euros|pounds)?\b] *)
Definition amount_re : regex :=
  Seq Bnd
  (Seq (Grp 1 number_re)
  (Seq (Rep ASpace 0 None)
  (Seq (Opt (Grp 2 currency_re))
       Bnd))).

Section Extractors.
Context {rt : Runtime}.

Definition extract_project_info (text : pystr) : option pystr * option pystr :=
  let project_number_match := search false project_number_re text in
  let project_number :=
    match project_number_match with
    | Some m => Some (m_text m)
    | None => None
    end in
  let project_name_match := search true project_name_re text in
  let project_name :=
    match project_name_match with
    | Some m => group 1 m
    | None => None
    end in
  (project_name, project_number).

Definition extract_amount (text : pystr) : res (option Q * option pystr) :=
  match search true amount_re text with
  | Some m =>
    match py_float_opt (group 1 m) with
    | Ok amount =>
      let currency :=
        if truthy (group 2 m) then group 2 m else Some (py "USD") in
      Ok (Some amount, currency)
    | Raise e => Raise e
    end
  | None => Ok (None, None)
  end.

End Extractors.

(** ** Session state, transcript and request store *)

Inductive sender := User | Assistant.

(** [{"text": text, "sender": sender}] *)
Record message := {
  text : pystr;
  sender_of : sender
}.

Inductive stage := Project | Amount | Reason | Confirm.

Definition stage_eqb (a b : stage) : bool :=
  match a, b with
  | Project, Project | Amount, Amount | Reason, Reason | Confirm, Confirm => true
  | _, _ => false
  end.

(** [st.session_state['request']]: a dict with at most these five keys; a
    key that is absent reads as [None], as [dict.get] does. *)
Record request := {
  project_name : option pystr;
  project_number : option pystr;
  amount : option Q;
  currency : option pystr;
  reason : option pystr
}.

(** [{}] *)
Definition empty_request : request :=
  {| project_name := None; project_number := None; amount := None;
     currency := None; reason := None |}.

(** [st.session_state].  [process_request] and [add_message] create the
    keys that are missing with the values [stage = 'project'],
    [request = {}] and [messages = []]; a missing key is modelled by that
    value. *)
Record session := {
  stage_of : stage;
  request_of : request;
  messages : list message
}.

(** A row of the table [requests] of expense_requests.db; the
    autoincremented id is left out. *)
Record row := {
  row_project_name : option pystr;
  row_project_number : option pystr;
  row_amount : option Q;
  row_currency : option pystr;
  row_reason : option pystr;
  row_timestamp : N;
  row_status : pystr
}.

Definition store := list row.

(** What a turn reads from outside the program: the clock, and whether
    sqlite3 carries the write out.  When it does not, the call raises and
    the table keeps its rows. *)
Record env := {
  now : N;
  db_ok : bool
}.

Record world := {
  sess : session;
  db : store
}.

(** How a call ends.  An exception leaves the session state as it was when
    it was raised. *)
Inductive outcome :=
| Returned (w : world)
| Raised (e : exn) (w : world).

Definition world_of (o : outcome) : world :=
  match o with
  | Returned w => w
  | Raised _ w => w
  end.

Definition add_message (t : pystr) (s : sender) (ss : session) : session :=
  {| stage_of := stage_of ss;
     request_of := request_of ss;
     messages := messages ss ++ [{| text := t; sender_of := s |}] |}.

Definition set_stage (st : stage) (ss : session) : session :=
  {| stage_of := st; request_of := request_of ss; messages := messages ss |}.

Definition set_request (r : request) (ss : session) : session :=
  {| stage_of := stage_of ss; request_of := r; messages := messages ss |}.

Definition set_messages (ms : list message) (ss : session) : session :=
  {| stage_of := stage_of ss; request_of := request_of ss; messages := ms |}.

Definition affirmative_responses : list pystr :=
  [py "yes"; py "sure"; py "ok"; py "affirmative"; py "yep"; py "yeah"; py "proceed"].

(** [any(response in text for response in affirmative_responses)] *)
Definition any_affirmative (t : pystr) : bool :=
  existsb (fun response => contains response t) affirmative_responses.

(** [x or d] for an optional string. *)
Definition or_default (x : option pystr) (d : pystr) : pystr :=
  match x with
  | Some (c :: s) => c :: s
  | _ => d
  end.

(** [if amount:] *)
Definition amount_truthy (a : option Q) : bool :=
  match a with
  | Some x => float_truthy x
  | None => false
  end.

Definition nl : pystr := [10].

Section Dialogue.
Context {rt : Runtime}.

(** [str(x)] inside an f-string, for an optional string and for an optional
    float. *)
Definition str_opt (x : option pystr) : pystr :=
  match x with
  | Some s => s
  | None => py "None"
  end.

Definition str_float_opt (x : option Q) : pystr :=
  match x with
  | Some a => float_str a
  | None => py "None"
  end.

Definition summary_text (r : request) : pystr :=
  nl ++ py "    📋 **Summary of your request:**" ++
  nl ++ py "    - **Project Name**: " ++ str_opt (project_name r) ++
  nl ++ py "    - **Project Number**: " ++ str_opt (project_number r) ++
  nl ++ py "    - **Amount**: " ++ str_float_opt (amount r) ++ py " " ++ str_opt (currency r) ++
  nl ++ py "    - **Reason**: " ++ str_opt (reason r) ++
  nl ++ py "    💬 Is this correct? (yes/no)" ++
  nl ++ py "    ".

Definition display_summary (ss : session) : session :=
  add_message (summary_text (request_of ss)) Assistant ss.

(** The values of the INSERT statement of [save_request]. *)
Definition pending_row (e : env) (r : request) : row :=
  {| row_project_name := project_name r;
     row_project_number := project_number r;
     row_amount := amount r;
     row_currency := currency r;
     row_reason := reason r;
     row_timestamp := now e;
     row_status := py "Pending" |}.

Definition save_request (e : env) (w : world) : res world :=
  if db_ok e then
    Ok {| sess := sess w;
          db := db w ++ [pending_row e (request_of (sess w))] |}
  else Raise OperationalError.

Definition on_session (f : session -> session) (w : world) : world :=
  {| sess := f (sess w); db := db w |}.

(** The branch of [process_request] taken in stage ['project']. *)
Definition project_turn (t : pystr) (ss : session) : session :=
  let '(project_name, project_number) := extract_project_info t in
  if truthy project_number then
    let ss := set_request
      {| project_name := Some (or_default project_name (py "Unnamed Project"));
         project_number := project_number;
         amount := amount (request_of ss);
         currency := currency (request_of ss);
         reason := reason (request_of ss) |} ss in
    let ss := set_stage Amount ss in
    let ss := add_message
      (py "✅ Project info: " ++ or_default project_name (py "Unnamed Project") ++
       py " (" ++ str_opt project_number ++ py ")") Assistant ss in
    add_message (py "💬 Please specify the amount.") Assistant ss
  else
    add_message
      (py "💬 I couldn't detect a project number. Please mention it explicitly.")
      Assistant ss.

(** The branch taken in stage ['amount']; [extract_amount] may raise. *)
Definition amount_turn (t : pystr) (ss : session) : res session :=
  match extract_amount t with
  | Raise e => Raise e
  | Ok (amount, currency) =>
    if amount_truthy amount then
      let ss := set_request
        {| project_name := project_name (request_of ss);
           project_number := project_number (request_of ss);
           amount := amount;
           currency := currency;
           reason := reason (request_of ss) |} ss in
      let ss := set_stage Reason ss in
      let ss := add_message
        (py "✅ Amount received: " ++ str_float_opt amount ++ py " " ++ str_opt currency)
        Assistant ss in
      Ok (add_message (py "💬 What’s the reason for this expense?") Assistant ss)
    else
      Ok (add_message (py "💬 Couldn’t detect an amount. Please specify it.") Assistant ss)
  end.

(** The branch taken in stage ['reason']. *)
Definition reason_turn (t : pystr) (ss : session) : session :=
  if (3 <=? length (split t))%nat then
    let ss := set_request
      {| project_name := project_name (request_of ss);
         project_number := project_number (request_of ss);
         amount := amount (request_of ss);
         currency := currency (request_of ss);
         reason := Some t |} ss in
    let ss := set_stage Confirm ss in
    display_summary ss
  else
    add_message (py "💬 Please provide a more detailed reason for the expense.")
                Assistant ss.

(** The branch taken in stage ['confirm']. *)
Definition confirm_turn (t : pystr) (ss : session) : session :=
  if existsb (pystr_eqb (lower t)) [py "no"; py "cancel"] then
    let ss := set_stage Project ss in
    let ss := set_request empty_request ss in
    add_message (py "🔄 Request cancelled. Let’s start over.") Assistant ss
  else
    add_message (py "💬 Please confirm with 'yes' or 'no'.") Assistant ss.

Definition process_request (e : env) (utterance : pystr) (w : world) : outcome :=
  let w := on_session (add_message utterance User) w in
  let t := lower utterance in
  if any_affirmative t then
    if stage_eqb (stage_of (sess w)) Confirm then
      match save_request e w with
      | Raise x => Raised x w
      | Ok w =>
        let ss := set_stage Project (sess w) in
        let ss := set_request empty_request ss in
        let ss := add_message (py "✅ Request submitted successfully!") Assistant ss in
        let ss := add_message (py "💬 You can start a new request now.") Assistant ss in
        let ss := set_messages [] ss in
        Returned {| sess := ss; db := db w |}
      end
    else Returned w
  else
    match stage_of (sess w) with
    | Project => Returned (on_session (project_turn t) w)
    | Amount =>
      match amount_turn t (sess w) with
      | Ok ss => Returned {| sess := ss; db := db w |}
      | Raise x => Raised x w
      end
    | Reason => Returned (on_session (reason_turn t) w)
    | Confirm => Returned (on_session (confirm_turn t) w)
    end.

(** The state in which a conversation starts. *)
Definition initial_session : session :=
  {| stage_of := Project; request_of := empty_request; messages := [] |}.

End Dialogue.

(** ** What it means for a pattern to match

    The matcher above says which match [re] finds; the relation below only
    says what a match is.  [matches ic r prev s g prev' s' g'] holds when
    [r] can match the text between the positions [s] and [s'], the groups
    going from [g] to [g']. *)

(** The character before the position reached after reading [cs]. *)
Definition last_char (prev : option char) (cs : pystr) : option char :=
  fold_left (fun _ c => Some c) cs prev.

Definition within (hi : option nat) (n : nat) : Prop :=
  match hi with
  | Some h => (n <= h)%nat
  | None => True
  end.

Section Matches.
Context {rt : Runtime}.
Variable ic : bool.

Inductive matches :
  regex -> option char -> pystr -> caps -> option char -> pystr -> caps -> Prop :=
| M_Eps p s g :
    matches Eps p s g p s g
| M_Atom a c p s g :
    atom_match ic a c = true ->
    matches (Atom a) p (c :: s) g (Some c) s g
| M_Bnd p s g :
    at_boundary p s = true ->
    matches Bnd p s g p s g
| M_Seq r1 r2 p s g p1 s1 g1 p2 s2 g2 :
    matches r1 p s g p1 s1 g1 ->
    matches r2 p1 s1 g1 p2 s2 g2 ->
    matches (Seq r1 r2) p s g p2 s2 g2
| M_AltL r1 r2 p s g p' s' g' :
    matches r1 p s g p' s' g' ->
    matches (Alt r1 r2) p s g p' s' g'
| M_AltR r1 r2 p s g p' s' g' :
    matches r2 p s g p' s' g' ->
    matches (Alt r1 r2) p s g p' s' g'
| M_OptSome r p s g p' s' g' :
    matches r p s g p' s' g' ->
    matches (Opt r) p s g p' s' g'
| M_OptNone r p s g :
    matches (Opt r) p s g p s g
| M_Rep a lo hi cs p s' g :
    Forall (fun c => atom_match ic a c = true) cs ->
    (lo <= length cs)%nat ->
    within hi (length cs) ->
    matches (Rep a lo hi) p (cs ++ s') g (last_char p cs) s' g
| M_Grp n r p s g p' s' g' :
    matches r p s g p' s' g' ->
    matches (Grp n r) p s g p' s' ((n, consumed s s') :: g').

(** [r] matches at the position that follows [pre] in [pre ++ s], up to
    the position [s'], with the groups [g]. *)
Definition matches_at (r : regex) (pre s s' : pystr) (g : caps) : Prop :=
  exists p', matches r (last_char None pre) s [] p' s' g.

(** [r] matches somewhere in [t]. *)
Definition has_match (r : regex) (t : pystr) : Prop :=
  exists pre s s' g, t = pre ++ s /\ matches_at r pre s s' g.

End Matches.

(** The texts [\d+(?:\.\d{1,2})?] stands for: digits, then possibly a
    full stop and one or two digits. *)
Definition number_literal {rt : Runtime} (t : pystr) : Prop :=
  exists ds fs,
    ds <> [] /\ Forall (fun c => isdecimal c = true) ds /\
    Forall (fun c => isdecimal c = true) fs /\ (length fs <= 2)%nat /\
    (t = ds \/ (fs <> [] /\ t = ds ++ 46 :: fs)).

Definition currency_tokens : list pystr :=
  [py "USD"; py "EUR"; py "GBP"; py "dollars"; py "euros"; py "pounds"].

(** [c] is one of the currency tokens up to case. *)
Definition currency_token {rt : Runtime} (c : pystr) : Prop :=
  exists tok, In tok currency_tokens /\ map fold_case c = map fold_case tok.

(** ** An excerpt of the Unicode tables

    Enough of the real tables to run the functions: the four blocks of
    decimal digits below (all of category Nd, hence alphanumeric), the
    spaces beyond ASCII, and the Latin-1 letters with their lower case.  The
    code points that are not listed are taken as symbols that have no
    case. *)

Definition excerpt_digit_base (c : char) : option N :=
  if in_range 1632 1641 c then Some 1632        (* U+0660 ARABIC-INDIC DIGIT ZERO.. *)
  else if in_range 1776 1785 c then Some 1776   (* U+06F0 EXTENDED ARABIC-INDIC.. *)
  else if in_range 2406 2415 c then Some 2406   (* U+0966 DEVANAGARI DIGIT ZERO.. *)
  else if in_range 65296 65305 c then Some 65296 (* U+FF10 FULLWIDTH DIGIT ZERO.. *)
  else None.

Definition excerpt_isdecimal (c : char) : bool :=
  match excerpt_digit_base c with Some _ => true | None => false end.

Definition excerpt_decimal_value (c : char) : N :=
  match excerpt_digit_base c with Some b => c - b | None => 0 end.

(** U+00C0..U+00DE without the multiplication sign. *)
Definition latin1_isupper (c : char) : bool :=
  in_range 192 222 c && negb (c =? 215).

(** U+00DF..U+00FF without the division sign. *)
Definition latin1_islower (c : char) : bool :=
  in_range 223 255 c && negb (c =? 247).

Definition excerpt_isalnum (c : char) : bool :=
  excerpt_isdecimal c || latin1_isupper c || latin1_islower c.

Definition excerpt_isspace (c : char) : bool :=
  (c =? 133) || (c =? 160) || (c =? 5760) || in_range 8192 8202 c ||
  (c =? 8232) || (c =? 8233) || (c =? 8239) || (c =? 8287) || (c =? 12288).

Definition excerpt_lower (c : char) : pystr :=
  if latin1_isupper c then [c + 32] else [c].

Definition excerpt_fold (c : char) : char :=
  if latin1_isupper c then c + 32 else c.

(** Decimal digits of a natural number. *)
Fixpoint digits_of (fuel : nat) (n : N) (acc : pystr) : pystr :=
  match fuel with
  | O => acc
  | S f =>
    let acc' := (48 + n mod 10) :: acc in
    if n / 10 =? 0 then acc' else digits_of f (n / 10) acc'
  end.

Definition N_str (n : N) : pystr := digits_of (S (N.to_nat (N.log2 n))) n [].

(** [str(x)] as Python prints the floats that have at most two decimals
    and fifteen digits: [250.0], [120.5], [0.25]. *)
Definition excerpt_float_str (x : Q) : pystr :=
  let n := Z.to_N (Qnum x) in
  let d := Npos (Qden x) in
  let h := (n * 100 / d) mod 100 in
  N_str (n / d) ++ [46] ++
  (if h mod 10 =? 0 then [48 + h / 10] else [48 + h / 10; 48 + h mod 10]).

#[export] Instance excerpt : Runtime := {|
  uni_isdecimal := excerpt_isdecimal;
  uni_decimal_value := excerpt_decimal_value;
  uni_isalnum := excerpt_isalnum;
  uni_isspace := excerpt_isspace;
  uni_lower := excerpt_lower;
  uni_fold := excerpt_fold;
  float_str := excerpt_float_str
|}.

(** ** Notions used in the statements *)

(** [a] occurs in [b]. *)
Definition occurs_in (a b : pystr) : Prop := exists x y, b = x ++ a ++ y.

(** The session once the utterance is in the transcript: the first
    statement of [process_request]. *)
Definition heard (u : pystr) (w : world) : world :=
  on_session (add_message u User) w.

(** The fields are filled in the order project, amount, reason. *)
Definition filled_in_order (r : request) : Prop :=
  (amount r <> None -> project_number r <> None) /\
  (reason r <> None -> amount r <> None).

(** Every field that is set in [r] has the same value in [r']. *)
Definition keeps_fields (r r' : request) : Prop :=
  (forall v, project_name r = Some v -> project_name r' = Some v) /\
  (forall v, project_number r = Some v -> project_number r' = Some v) /\
  (forall v, amount r = Some v -> amount r' = Some v) /\
  (forall v, currency r = Some v -> currency r' = Some v) /\
  (forall v, reason r = Some v -> reason r' = Some v).

(** What the request holds in each stage. *)
Definition stage_inv (ss : session) : Prop :=
  let r := request_of ss in
  match stage_of ss with
  | Project => r = empty_request
  | Amount =>
    project_name r <> None /\ project_number r <> None /\
    amount r = None /\ currency r = None /\ reason r = None
  | Reason =>
    project_name r <> None /\ project_number r <> None /\
    amount r <> None /\ currency r <> None /\ reason r = None
  | Confirm =>
    project_name r <> None /\ project_number r <> None /\
    amount r <> None /\ currency r <> None /\ reason r <> None
  end.

Section Reachable.
Context {rt : Runtime}.

(** The states a conversation goes through: it starts in stage [project]
    with an empty request, whatever the transcript and the store hold, and
    each turn processes one utterance; a turn that raises leaves the state
    in which the next turn starts. *)
Inductive reachable : world -> Prop :=
| reach_start w :
    stage_of (sess w) = Project ->
    request_of (sess w) = empty_request ->
    reachable w
| reach_turn e u w :
    reachable w ->
    reachable (world_of (process_request e u w)).

End Reachable.

(** GREEK CAPITAL LETTER SIGMA, the one letter to which [str.lower] gives
    a lower case that depends on its place in the word. *)
Definition capital_sigma : char := 931.

(** The text has no capital sigma: [str.lower] maps its code points one by
    one, as [lower] does. *)
Definition sigma_free (t : pystr) : Prop := ~ In capital_sigma t.

(** The integers from which on a float no longer holds every integer. *)
Definition float_exact_bound : N := 9007199254740992.

(** Every decimal digit of the text is an ASCII digit. *)
Definition ascii_digits {rt : Runtime} (t : pystr) : Prop :=
  forall c, In c t -> isdecimal c = true -> c < 128.

(** The lower-case mapping of a code point gives lower-case text: mapping
    it again changes nothing.  This holds for the Unicode tables; here it
    is a condition on the tables that are given. *)
Definition lower_stable {rt : Runtime} : Prop :=
  forall c, 128 <= c -> lower (uni_lower c) = uni_lower c.

(** ** Sample sessions *)

Definition sample_env : env := {| now := 1762128000; db_ok := true |}.

Definition failing_env : env := {| now := 1762128000; db_ok := false |}.

Definition welcome : list message :=
  [{| text := py "👋 Welcome! Please provide the project information (name or number).";
      sender_of := Assistant |}].

Definition sample_request : request :=
  {| project_name := Some (py "4021");
     project_number := Some (py "4021");
     amount := Some 300%Q;
     currency := Some (py "usd");
     reason := None |}.

Definition at_project : world :=
  {| sess := {| stage_of := Project; request_of := empty_request; messages := welcome |};
     db := [] |}.

Definition at_amount : world :=
  {| sess := {| stage_of := Amount;
                request_of := {| project_name := Some (py "4021");
                                 project_number := Some (py "4021");
                                 amount := None; currency := None; reason := None |};
                messages := welcome |};
     db := [] |}.

Definition at_reason : world :=
  {| sess := {| stage_of := Reason; request_of := sample_request; messages := welcome |};
     db := [] |}.

Definition at_confirm : world :=
  {| sess := {| stage_of := Confirm;
                request_of := {| project_name := Some (py "4021");
                                 project_number := Some (py "4021");
                                 amount := Some 300%Q;
                                 currency := Some (py "usd");
                                 reason := Some (py "client dinner with partners") |};
                messages := welcome |};
     db := [] |}.

(** ** The chat, the transcription and the page

    [display_chat_history], [transcribe_audio_file], [transcribe_microphone]
    and [main].  What Streamlit draws besides the chat (the title, the
    sidebar with the previous submissions, the widgets) is not modelled;
    the widgets are read as the inputs of a run. *)

(** One line of [display_chat_history]. *)
Definition chat_line (m : message) : pystr :=
  py "**" ++
  match sender_of m with
  | User => py "👤 You"
  | Assistant => py "🤖 Assistant"
  end ++ py "**: " ++ text m.

(** The lines [display_chat_history] writes, in order. *)
Definition display_chat_history (ss : session) : list pystr :=
  map chat_line (messages ss).

(** What the speech recognition library does with an audio source: it
    returns a text, or it raises an exception whose [str] is [msg]. *)
Inductive recognition :=
| Recognized (t : pystr)
| Failed (msg : pystr).

Definition unavailable_text : pystr :=
  py "Speech recognition is not available. Please install the required packages.".

(** [available] is [SPEECH_RECOGNITION_AVAILABLE]. *)
Definition transcribe_audio_file (available : bool) (r : recognition) : pystr :=
  if negb available then unavailable_text
  else match r with
       | Recognized t => t
       | Failed msg => py "Error processing audio file: " ++ msg
       end.

Definition transcribe_microphone (available : bool) (r : recognition) : pystr :=
  if negb available then unavailable_text
  else match r with
       | Recognized t => t
       | Failed msg => py "Error: " ++ msg
       end.

(** The widgets of a run: the text typed, whether "Submit" is pressed, the
    audio file uploaded if there is one (given by what the recognition makes
    of it), whether "Record via Microphone" is pressed and what the
    recognition makes of the recording. *)
Record inputs := {
  user_input : pystr;
  submit : bool;
  audio_file : option recognition;
  record : bool;
  microphone : recognition
}.

(** What a run reads from outside: whether the database can be opened and
    read at the start ([init_db], [display_previous_submissions]), and the
    clock and the store for each of the three calls of [process_request]. *)
Record run_env := {
  read_ok : bool;
  env_submit : env;
  env_audio : env;
  env_microphone : env
}.

(** [st.session_state], which has no key at all before the first run, and
    the table. *)
Record app_state := {
  state : option session;
  table : store
}.

(** What a run leaves: the chat it has drawn, the exception that ended it
    if one did, and the state. *)
Record page := {
  chat : list pystr;
  raised : option exn;
  after : app_state
}.

Definition welcome_text : pystr :=
  py "👋 Welcome! Please provide the project information (name or number).".

(** The first statements of [main] on the session: without the key
    ['messages'] the transcript is created with the welcome message and the
    stage is set. *)
Definition start_session (st : option session) : session :=
  match st with
  | Some ss => ss
  | None =>
    add_message welcome_text Assistant
      {| stage_of := Project; request_of := empty_request; messages := [] |}
  end.

Definition and_then (o : outcome) (f : world -> outcome) : outcome :=
  match o with
  | Returned w => f w
  | Raised x w => Raised x w
  end.

Definition raised_by (o : outcome) : option exn :=
  match o with
  | Returned _ => None
  | Raised x _ => Some x
  end.

(** [if text:] *)
Definition nonempty (t : pystr) : bool :=
  match t with
  | [] => false
  | _ :: _ => true
  end.

Section Page.
Context {rt : Runtime}.

Definition main (available : bool) (re : run_env) (inp : inputs) (a : app_state) : page :=
  if negb (read_ok re) then
    {| chat := []; raised := Some OperationalError; after := a |}
  else
    let ss := start_session (state a) in
    let shown := display_chat_history ss in
    let w0 := {| sess := ss; db := table a |} in
    let o1 :=
      if submit inp then process_request (env_submit re) (user_input inp) w0
      else Returned w0 in
    let o2 :=
      and_then o1 (fun w =>
        match audio_file inp with
        | Some r =>
          let text := transcribe_audio_file available r in
          process_request (env_audio re) text w
        | None => Returned w
        end) in
    let o3 :=
      and_then o2 (fun w =>
        if available && record inp then
          let text := transcribe_microphone available (microphone inp) in
          if nonempty text then process_request (env_microphone re) text w
          else Returned w
        else Returned w) in
    {| chat := shown;
       raised := raised_by o3;
       after := {| state := Some (sess (world_of o3)); table := db (world_of o3) |} |}.

(** Successive calls of [process_request], each with what it reads from
    outside. *)
Fixpoint run (turns : list (env * pystr)) (w : world) : world :=
  match turns with
  | [] => w
  | (e, u) :: rest => run rest (world_of (process_request e u w))
  end.

End Page.

(** ** More notions used in the statements *)

(** The stage that follows a stage; after [confirm] the dialogue starts
    again. *)
Definition next_stage (s : stage) : stage :=
  match s with
  | Project => Amount
  | Amount => Reason
  | Reason => Confirm
  | Confirm => Project
  end.

(** How far a stage is from the start of the dialogue. *)
Definition stage_rank (s : stage) : nat :=
  match s with
  | Project => 0
  | Amount => 1
  | Reason => 2
  | Confirm => 3
  end.

Definition from_assistant (m : message) : Prop := sender_of m = Assistant.

(** The message that [process_request] adds when a request is submitted. *)
Definition success_message : message :=
  {| text := py "✅ Request submitted successfully!"; sender_of := Assistant |}.

(** The transcript of the state, if there is one, has no message of
    success. *)
Definition no_success (st : option session) : Prop :=
  match st with
  | Some ss => ~ In success_message (messages ss)
  | None => True
  end.

(** The values a request holds are those the dialogue accepts: texts that
    are not empty, an amount above zero, a reason of three tokens or more
    with no affirmative token. *)
Definition values_accepted {rt : Runtime} (r : request) : Prop :=
  (forall n, project_name r = Some n -> n <> []) /\
  (forall n, project_number r = Some n -> n <> []) /\
  (forall a, amount r = Some a -> (0 < a)%Q) /\
  (forall c, currency r = Some c -> c <> []) /\
  (forall t, reason r = Some t ->
     any_affirmative t = false /\ (3 <= length (split t))%nat).

(** Every field of the row is set. *)
Definition row_complete (r : row) : Prop :=
  row_project_name r <> None /\ row_project_number r <> None /\
  row_amount r <> None /\ row_currency r <> None /\ row_reason r <> None.

(** Every character is an ASCII character. *)
Definition ascii_text (t : pystr) : Prop := Forall (fun c => c < 128) t.

(** The texts a stored currency can be for an ASCII utterance. *)
Definition stored_currencies : list pystr :=
  [py "USD"; py "usd"; py "eur"; py "gbp"; py "dollars"; py "euros"; py "pounds"].

(** ** Sample runs *)

Definition three_turns : list (env * pystr) :=
  [(sample_env, py "project 4021"); (sample_env, py "300 USD");
   (sample_env, py "client dinner with partners")].

Definition typed_yes : inputs :=
  {| user_input := py "yes"; submit := true; audio_file := None;
     record := false; microphone := Recognized [] |}.

Definition uploaded_audio : inputs :=
  {| user_input := []; submit := false; audio_file := Some (Recognized (py "team lunch"));
     record := false; microphone := Recognized [] |}.

Definition nothing_pressed : inputs :=
  {| user_input := []; submit := false; audio_file := None;
     record := false; microphone := Recognized [] |}.

Definition sample_run : run_env :=
  {| read_ok := true; env_submit := sample_env; env_audio := sample_env;
     env_microphone := sample_env |}.

Definition failing_run : run_env :=
  {| read_ok := true; env_submit := failing_env; env_audio := sample_env;
     env_microphone := sample_env |}.

(** * Properties *)

(** ** The matcher finds a match exactly when there is one *)

Section RegexTheory.
Context {rt : Runtime}.

Lemma last_char_app p a b : last_char p (a ++ b) = last_char (last_char p a) b.
Proof. unfold last_char. apply fold_left_app. Qed.

Lemma within_0 hi : within hi 0.
Proof. destruct hi; simpl; lia. Qed.

Lemma within_S hi n :
  below hi = true -> within (dec hi) n -> within hi (S n).
Proof.
  destruct hi as [[|h]|]; simpl; try discriminate; intros; lia.
Qed.

Lemma within_S_inv hi n :
  within hi (S n) -> below hi = true /\ within (dec hi) n.
Proof.
  destruct hi as [[|h]|]; simpl; intros; split; auto; lia.
Qed.

Lemma rep_sound R ic a k : forall s lo hi p (x : R),
  rep R ic a lo hi p s k = Some x ->
  exists cs s',
    s = cs ++ s' /\
    Forall (fun c => atom_match ic a c = true) cs /\
    (lo <= length cs)%nat /\ within hi (length cs) /\
    k (last_char p cs) s' = Some x.
Proof.
  assert (Hstop : forall s lo hi p (x : R),
    match lo with 0%nat => k p s | _ => None end = Some x ->
    exists cs s',
      s = cs ++ s' /\
      Forall (fun c => atom_match ic a c = true) cs /\
      (lo <= length cs)%nat /\ within hi (length cs) /\
      k (last_char p cs) s' = Some x).
  { intros s lo hi p x H. destruct lo; [|discriminate].
    exists [], s. repeat split; auto using within_0. }
  induction s as [|c s IH]; intros lo hi p x H; simpl in H.
  - now apply Hstop.
  - destruct (below hi && atom_match ic a c) eqn:E; [|now apply Hstop].
    destruct (rep R ic a (Nat.pred lo) (dec hi) (Some c) s k) eqn:E2;
      [|now apply Hstop].
    inversion H; subst r. apply andb_prop in E as [Eb Ea].
    destruct (IH _ _ _ _ E2) as (cs & s' & -> & Hall & Hlo & Hhi & Hk).
    exists (c :: cs), s'. repeat split; simpl; auto using within_S.
    lia.
Qed.

Lemma rep_complete R ic a k : forall cs s' lo hi p,
  Forall (fun c => atom_match ic a c = true) cs ->
  (lo <= length cs)%nat -> within hi (length cs) ->
  k (last_char p cs) s' <> None ->
  rep R ic a lo hi p (cs ++ s') k <> None.
Proof.
  induction cs as [|c cs IH]; intros s' lo hi p Hall Hlo Hhi Hk.
  - simpl in Hlo. assert (lo = 0%nat) by lia. subst lo.
    simpl. destruct s' as [|c s']; simpl; auto.
    destruct (below hi && atom_match ic a c); auto.
    destruct (rep R ic a 0 (dec hi) (Some c) s' k); auto. discriminate.
  - inversion Hall; subst. simpl in Hhi. apply within_S_inv in Hhi as [Hb Hd].
    change ((c :: cs) ++ s') with (c :: (cs ++ s')).
    simpl. rewrite Hb, H1. simpl.
    assert (Hrec : rep R ic a (Nat.pred lo) (dec hi) (Some c) (cs ++ s') k <> None).
    { apply IH; auto. simpl in Hlo. lia. }
    destruct (rep R ic a (Nat.pred lo) (dec hi) (Some c) (cs ++ s') k);
      [discriminate | contradiction].
Qed.

Lemma mt_sound R ic : forall r p s g k (x : R),
  mt R ic r p s g k = Some x ->
  exists p' s' g', matches ic r p s g p' s' g' /\ k p' s' g' = Some x.
Proof.
  induction r; intros p s g k x H; simpl in H.
  - exists p, s, g. split; [constructor | assumption].
  - destruct s as [|c s]; [discriminate|].
    destruct (atom_match ic a c) eqn:E; [|discriminate].
    exists (Some c), s, g. split; [now constructor | assumption].
  - destruct (at_boundary p s) eqn:E; [|discriminate].
    exists p, s, g. split; [now constructor | assumption].
  - apply IHr1 in H as (p1 & s1 & g1 & M1 & H).
    apply IHr2 in H as (p2 & s2 & g2 & M2 & H).
    exists p2, s2, g2. split; [econstructor; eassumption | assumption].
  - destruct (mt R ic r1 p s g k) eqn:E.
    + inversion H; subst r. apply IHr1 in E as (p' & s' & g' & M & E).
      exists p', s', g'. split; [now apply M_AltL | assumption].
    + apply IHr2 in H as (p' & s' & g' & M & H).
      exists p', s', g'. split; [now apply M_AltR | assumption].
  - destruct (mt R ic r p s g k) eqn:E.
    + inversion H; subst r0. apply IHr in E as (p' & s' & g' & M & E).
      exists p', s', g'. split; [now apply M_OptSome | assumption].
    + exists p, s, g. split; [apply M_OptNone | assumption].
  - apply rep_sound in H as (cs & s' & -> & Hall & Hlo & Hhi & Hk).
    exists (last_char p cs), s', g. split; [now constructor | assumption].
  - apply IHr in H as (p' & s' & g' & M & H).
    exists p', s', ((n, consumed s s') :: g'). split; [now constructor | assumption].
Qed.

Lemma mt_complete R ic r p s g p' s' g' :
  matches ic r p s g p' s' g' ->
  forall k : option char -> pystr -> caps -> option R,
  k p' s' g' <> None -> mt R ic r p s g k <> None.
Proof.
  induction 1; intros k Hk; simpl; auto.
  - rewrite H. assumption.
  - rewrite H. assumption.
  - destruct (mt R ic r1 p s g k) eqn:E; [discriminate|].
    exfalso. now apply (IHmatches k).
  - destruct (mt R ic r1 p s g k); [discriminate | auto].
  - destruct (mt R ic r p s g k) eqn:E; [discriminate|].
    exfalso. now apply (IHmatches k).
  - destruct (mt R ic r p s g k); [discriminate | assumption].
  - now apply rep_complete.
Qed.

(** A match reads a prefix of the text. *)
Lemma matches_prefix ic r p s g p' s' g' :
  matches ic r p s g p' s' g' ->
  exists cs, s = cs ++ s' /\ p' = last_char p cs.
Proof.
  induction 1.
  - now exists [].
  - now exists [c].
  - now exists [].
  - destruct IHmatches1 as (c1 & -> & ->). destruct IHmatches2 as (c2 & -> & ->).
    exists (c1 ++ c2). now rewrite last_char_app, app_assoc.
  - assumption.
  - assumption.
  - assumption.
  - now exists [].
  - now exists cs.
  - assumption.
Qed.

Lemma consumed_app (cs s' : pystr) : consumed (cs ++ s') s' = cs.
Proof.
  unfold consumed. rewrite length_app.
  replace (length cs + length s' - length s')%nat with (length cs) by lia.
  rewrite firstn_app, firstn_all, Nat.sub_diag. simpl. apply app_nil_r.
Qed.

End RegexTheory.

(** ** [re.search] returns the leftmost match *)

Section SearchTheory.
Context {rt : Runtime}.
Variable ic : bool.
Variable r : regex.

Lemma match_here_sound i p s m :
  match_here ic r i p s = Some m ->
  exists p' s',
    matches ic r p s [] p' s' (m_groups m) /\
    m_start m = i /\ m_text m = consumed s s'.
Proof.
  unfold match_here. intros H.
  apply mt_sound in H as (p' & s' & g' & M & H).
  inversion H; subst m; simpl. now exists p', s'.
Qed.

Lemma match_here_complete i p s p' s' g' :
  matches ic r p s [] p' s' g' -> match_here ic r i p s <> None.
Proof.
  intros M. unfold match_here. eapply mt_complete; [exact M | discriminate].
Qed.

Lemma last_char_snoc p pre c : last_char p (pre ++ [c]) = Some c.
Proof. now rewrite last_char_app. Qed.

Lemma search_from_Some : forall s pre0 m,
  search_from ic r (length pre0) (last_char None pre0) s = Some m ->
  exists pre s1 s',
    s = pre ++ s1 /\
    m_start m = length (pre0 ++ pre) /\
    matches_at ic r (pre0 ++ pre) s1 s' (m_groups m) /\
    m_text m = consumed s1 s' /\
    (forall pre1 s2 s2' g2,
        s = pre1 ++ s2 -> (length pre1 < length pre)%nat ->
        ~ matches_at ic r (pre0 ++ pre1) s2 s2' g2).
Proof.
  induction s as [|c s IH]; intros pre0 m H; simpl in H.
  - destruct (match_here ic r (length pre0) (last_char None pre0) []) eqn:E;
      [|discriminate].
    inversion H; subst r0.
    apply match_here_sound in E as (p' & s' & M & Hst & Htx).
    exists [], [], s'. rewrite !app_nil_r. repeat split; auto.
    + unfold matches_at. now exists p'.
    + simpl. intros; lia.
  - destruct (match_here ic r (length pre0) (last_char None pre0) (c :: s)) eqn:E.
    + inversion H; subst r0.
      apply match_here_sound in E as (p' & s' & M & Hst & Htx).
      exists [], (c :: s), s'. rewrite !app_nil_r. repeat split; auto.
      * unfold matches_at. now exists p'.
      * simpl. intros; lia.
    + replace (S (length pre0)) with (length (pre0 ++ [c])) in H
        by (rewrite length_app; simpl; lia).
      rewrite <- (last_char_snoc None pre0 c) in H.
      apply IH in H as (pre & s1 & s' & -> & Hst & M & Htx & Hleft).
      rewrite <- app_assoc in Hst, M. simpl in Hst, M.
      exists (c :: pre), s1, s'. repeat split; auto.
      intros pre1 s2 s2' g2 Heq Hlen [p2 M2].
      destruct pre1 as [|c1 pre1]; simpl in Heq.
      * subst s2. rewrite app_nil_r in M2.
        now apply (match_here_complete (length pre0)) in M2.
      * inversion Heq; subst c1. simpl in Hlen.
        apply (Hleft pre1 s2 s2' g2); [assumption | lia |].
        exists p2. now rewrite <- app_assoc.
Qed.

Lemma search_from_None : forall s pre0,
  search_from ic r (length pre0) (last_char None pre0) s = None ->
  forall pre1 s2 s2' g2,
    s = pre1 ++ s2 -> ~ matches_at ic r (pre0 ++ pre1) s2 s2' g2.
Proof.
  induction s as [|c s IH]; intros pre0 H pre1 s2 s2' g2 Heq [p2 M2]; simpl in H.
  - destruct (match_here ic r (length pre0) (last_char None pre0) []) eqn:E;
      [discriminate|].
    symmetry in Heq. apply app_eq_nil in Heq as [-> ->].
    rewrite app_nil_r in M2.
    now apply (match_here_complete (length pre0)) in M2.
  - destruct (match_here ic r (length pre0) (last_char None pre0) (c :: s)) eqn:E;
      [discriminate|].
    destruct pre1 as [|c1 pre1]; simpl in Heq.
    + subst s2. rewrite app_nil_r in M2.
      now apply (match_here_complete (length pre0)) in M2.
    + inversion Heq; subst c1.
      replace (S (length pre0)) with (length (pre0 ++ [c])) in H
        by (rewrite length_app; simpl; lia).
      rewrite <- (last_char_snoc None pre0 c) in H.
      apply (IH _ H pre1 s2 s2' g2); [assumption|].
      exists p2. now rewrite <- app_assoc.
Qed.

(** What [re.search] returns when it returns a match: a match of the
    pattern, at the leftmost position where the pattern matches. *)
Lemma search_Some t m :
  search ic r t = Some m ->
  exists pre s s',
    t = pre ++ s /\
    m_start m = length pre /\
    matches_at ic r pre s s' (m_groups m) /\
    m_text m = consumed s s' /\
    (forall pre1 s1 s1' g1,
        t = pre1 ++ s1 -> (length pre1 < length pre)%nat ->
        ~ matches_at ic r pre1 s1 s1' g1).
Proof.
  intros H. apply (search_from_Some t []) in H. exact H.
Qed.

(** It returns [None] exactly when the pattern matches nowhere. *)
Lemma search_None t :
  search ic r t = None <-> ~ has_match ic r t.
Proof.
  split.
  - intros H (pre & s & s' & g & Heq & M).
    exact (search_from_None t [] H pre s s' g Heq M).
  - intros Hno. destruct (search ic r t) as [m|] eqn:E; [|reflexivity].
    exfalso. apply Hno.
    apply search_Some in E as (pre & s & s' & Heq & _ & M & _).
    now exists pre, s, s', (m_groups m).
Qed.

End SearchTheory.

(** Inversion of [matches], one lemma for each form of pattern. *)

Section Inversion.
Context {rt : Runtime}.
Variable ic : bool.

Lemma matches_Eps_inv p s g p' s' g' :
  matches ic Eps p s g p' s' g' -> p' = p /\ s' = s /\ g' = g.
Proof. intros M. inversion M; subst. auto. Qed.

Lemma matches_Atom_inv a p s g p' s' g' :
  matches ic (Atom a) p s g p' s' g' ->
  exists c, s = c :: s' /\ atom_match ic a c = true /\ p' = Some c /\ g' = g.
Proof. intros M. inversion M; subst. now exists c. Qed.

Lemma matches_Bnd_inv p s g p' s' g' :
  matches ic Bnd p s g p' s' g' ->
  at_boundary p s = true /\ p' = p /\ s' = s /\ g' = g.
Proof. intros M. inversion M; subst. auto. Qed.

Lemma matches_Seq_inv r1 r2 p s g p2 s2 g2 :
  matches ic (Seq r1 r2) p s g p2 s2 g2 ->
  exists p1 s1 g1,
    matches ic r1 p s g p1 s1 g1 /\ matches ic r2 p1 s1 g1 p2 s2 g2.
Proof. intros M. inversion M; subst. now exists p1, s1, g1. Qed.

Lemma matches_Alt_inv r1 r2 p s g p' s' g' :
  matches ic (Alt r1 r2) p s g p' s' g' ->
  matches ic r1 p s g p' s' g' \/ matches ic r2 p s g p' s' g'.
Proof. intros M. inversion M; subst; auto. Qed.

Lemma matches_Opt_inv r p s g p' s' g' :
  matches ic (Opt r) p s g p' s' g' ->
  matches ic r p s g p' s' g' \/ (p' = p /\ s' = s /\ g' = g).
Proof. intros M. inversion M; subst; auto. Qed.

Lemma matches_Rep_inv a lo hi p s g p' s' g' :
  matches ic (Rep a lo hi) p s g p' s' g' ->
  exists cs,
    s = cs ++ s' /\ Forall (fun c => atom_match ic a c = true) cs /\
    (lo <= length cs)%nat /\ within hi (length cs) /\
    p' = last_char p cs /\ g' = g.
Proof. intros M. inversion M; subst. exists cs. auto 7. Qed.

Lemma matches_Grp_inv n r p s g p' s' g' :
  matches ic (Grp n r) p s g p' s' g' ->
  exists g1, matches ic r p s g p' s' g1 /\ g' = (n, consumed s s') :: g1.
Proof. intros M. inversion M; subst. now exists g'0. Qed.

End Inversion.

(** ** The three patterns *)

Section Patterns.
Context {rt : Runtime}.

Lemma lit_re_inv ic : forall w p s g p' s' g',
  matches ic (lit_re w) p s g p' s' g' ->
  g' = g /\
  exists cs, s = cs ++ s' /\
    Forall2 (fun c q => atom_match ic (AChar q) c = true) cs w.
Proof.
  induction w as [|q w IH]; intros p s g p' s' g' M; simpl in M.
  - apply matches_Eps_inv in M as (-> & -> & ->). split; auto. now exists [].
  - apply matches_Seq_inv in M as (p1 & s1 & g1 & M1 & M2).
    apply matches_Atom_inv in M1 as (c & -> & Hc & -> & ->).
    apply IH in M2 as (-> & cs & -> & Hall).
    split; auto. exists (c :: cs). split; auto.
Qed.

(** Under [re.IGNORECASE] a word made of letters matches the texts equal to
    it up to case. *)
Lemma fold_eq_of_match : forall w cs,
  forallb iscased w = true ->
  Forall2 (fun c q => atom_match true (AChar q) c = true) cs w ->
  map fold_case cs = map fold_case w.
Proof.
  induction w as [|q w IH]; intros cs Hc Hall;
    inversion Hall as [|c q' cs' w' Hcq Hrest]; subst; simpl in *; auto.
  apply andb_prop in Hc as [Hq Hw]. rewrite Hq in Hcq. simpl in Hcq.
  apply N.eqb_eq in Hcq. rewrite Hcq. f_equal. now apply IH.
Qed.

Lemma currency_re_inv p s g p' s' g' :
  matches true currency_re p s g p' s' g' ->
  g' = g /\ exists cur, s = cur ++ s' /\ cur <> [] /\ currency_token cur.
Proof.
  unfold currency_re, lit. intros M.
  assert (Hone : forall tok,
    In tok currency_tokens -> forallb iscased tok = true -> tok <> [] ->
    matches true (lit_re tok) p s g p' s' g' ->
    g' = g /\ exists cur, s = cur ++ s' /\ cur <> [] /\ currency_token cur).
  { intros tok Hin Hc Hne Mt. apply lit_re_inv in Mt as (-> & cs & -> & Hall).
    split; auto. exists cs. split; auto. split.
    - intros ->. inversion Hall; subst. congruence.
    - exists tok. split; auto. now apply fold_eq_of_match. }
  repeat (apply matches_Alt_inv in M as [M|M];
    [eapply Hone; [| | |exact M]; [simpl; auto 7|reflexivity|discriminate]|]).
  eapply Hone; [| | |exact M]; [simpl; auto 7|reflexivity|discriminate].
Qed.

Lemma AChar_dot ic c : atom_match ic (AChar 46) c = true -> c = 46.
Proof.
  simpl. replace (ic && iscased 46) with false by now destruct ic.
  apply N.eqb_eq.
Qed.

Lemma number_re_inv ic p s g p' s' g' :
  matches ic number_re p s g p' s' g' ->
  g' = g /\ exists num, s = num ++ s' /\ number_literal num.
Proof.
  unfold number_re. intros M.
  apply matches_Seq_inv in M as (p1 & s1 & g1 & M1 & M2).
  apply matches_Rep_inv in M1 as (ds & -> & Hds & Hlo & _ & -> & ->).
  assert (Hne : ds <> []) by (intros ->; simpl in Hlo; lia).
  apply matches_Opt_inv in M2 as [M2 | (-> & -> & ->)].
  - apply matches_Seq_inv in M2 as (p2 & s2 & g2 & Ma & Mb).
    apply matches_Atom_inv in Ma as (c & -> & Hc & -> & ->).
    apply AChar_dot in Hc. subst c.
    apply matches_Rep_inv in Mb as (fs & -> & Hfs & Hflo & Hfhi & -> & ->).
    split; auto. exists (ds ++ 46 :: fs). split.
    + now rewrite <- app_assoc.
    + exists ds, fs. repeat split; auto.
      right. split; auto. intros ->. simpl in Hflo. lia.
  - split; auto. exists ds. split; auto.
    exists ds, []. repeat split; auto.
Qed.

End Patterns.

(** ** [float] on what the amount pattern captures *)

Section FloatTheory.
Context {rt : Runtime}.

Lemma digits_value_all : forall s acc,
  Forall (fun c => isdecimal c = true) s -> exists n, digits_value acc s = Some n.
Proof.
  induction s as [|c s IH]; intros acc H; simpl.
  - now exists acc.
  - inversion H as [|c' s' Hc Hs]; subst. rewrite Hc. now apply IH.
Qed.

Lemma decimal_not_dot c : isdecimal c = true -> (c =? 46) = false.
Proof.
  intros H. apply N.eqb_neq. intros ->. discriminate H.
Qed.

Lemma split_dot_digits : forall ds rest,
  Forall (fun c => isdecimal c = true) ds ->
  split_dot (ds ++ rest) = (ds ++ fst (split_dot rest), snd (split_dot rest)).
Proof.
  induction ds as [|c ds IH]; intros rest H; simpl.
  - now destruct (split_dot rest).
  - inversion H as [|c' s' Hc Hs]; subst.
    rewrite (decimal_not_dot _ Hc), (IH rest Hs). reflexivity.
Qed.

(** [float] does not raise on a number literal. *)
Lemma py_float_number_literal t :
  number_literal t -> exists a, py_float t = Ok a.
Proof.
  intros (ds & fs & Hne & Hds & Hfs & _ & [-> | [_ ->]]); unfold py_float.
  - pose proof (split_dot_digits ds [] Hds) as Hs. simpl in Hs.
    rewrite !app_nil_r in Hs. rewrite Hs. rewrite app_nil_r.
    destruct (digits_value_all ds 0 Hds) as [n Hn].
    destruct ds as [|c ds]; [congruence|]. rewrite Hn. eauto.
  - rewrite split_dot_digits by assumption. simpl. rewrite app_nil_r.
    assert (Hall : Forall (fun c => isdecimal c = true) (ds ++ fs))
      by (apply Forall_app; auto).
    destruct (digits_value_all _ 0 Hall) as [n Hn].
    destruct ds as [|c ds]; [congruence|]. simpl app in *. rewrite Hn. eauto.
Qed.

End FloatTheory.

(** ** The shape of a match of the amount pattern *)

Section AmountPattern.
Context {rt : Runtime}.

Lemma amount_re_inv p s p' s' g' :
  matches true amount_re p s [] p' s' g' ->
  exists num ws,
    number_literal num /\ Forall (fun c => isspace c = true) ws /\
    ((g' = [(1%nat, num)] /\ s = num ++ ws ++ s') \/
     (exists cur,
        currency_token cur /\ cur <> [] /\
        g' = [(2%nat, cur); (1%nat, num)] /\ s = num ++ ws ++ cur ++ s')).
Proof.
  unfold amount_re. intros M.
  apply matches_Seq_inv in M as (p1 & s1 & g1 & Mb & M).
  apply matches_Bnd_inv in Mb as (_ & -> & -> & ->).
  apply matches_Seq_inv in M as (p2 & s2 & g2 & Mn & M).
  apply matches_Grp_inv in Mn as (g1 & Mn & ->).
  apply number_re_inv in Mn as (-> & num & -> & Hnum).
  apply matches_Seq_inv in M as (p3 & s3 & g3 & Mw & M).
  apply matches_Rep_inv in Mw as (ws & -> & Hws & _ & _ & -> & ->).
  apply matches_Seq_inv in M as (p4 & s4 & g4 & Mc & Mb).
  apply matches_Bnd_inv in Mb as (_ & -> & -> & ->).
  exists num, ws. split; auto. split; auto.
  apply matches_Opt_inv in Mc as [Mc | (-> & -> & ->)].
  - right. apply matches_Grp_inv in Mc as (g5 & Mc & ->).
    apply currency_re_inv in Mc as (-> & cur & -> & Hne & Hcur).
    rewrite !consumed_app. exists cur. auto.
  - left. rewrite consumed_app. auto.
Qed.

End AmountPattern.

(** ** What [extract_amount] returns *)

Section AmountTheory.
Context {rt : Runtime}.

(** Either the pattern matches nowhere and the result is [(None, None)],
    or the leftmost match reads a number literal [num], blanks [ws] and
    possibly a currency token [cur], and the result is the float of [num]
    with [cur], or with "USD" when there is no token. *)
Lemma extract_amount_cases text :
  (search true amount_re text = None /\ extract_amount text = Ok (None, None)) \/
  (exists pre num ws cur post a,
     text = pre ++ num ++ ws ++ cur ++ post /\
     number_literal num /\ py_float num = Ok a /\
     Forall (fun c => isspace c = true) ws /\
     (cur = [] \/ currency_token cur) /\
     (forall pre1 s1 s1' g1,
         text = pre1 ++ s1 -> (length pre1 < length pre)%nat ->
         ~ matches_at true amount_re pre1 s1 s1' g1) /\
     has_match true amount_re text /\
     extract_amount text =
       Ok (Some a, Some (match cur with [] => py "USD" | _ => cur end))).
Proof.
  unfold extract_amount.
  destruct (search true amount_re text) as [m|] eqn:E; [right | left; auto].
  apply search_Some in E as (pre & s & s' & -> & _ & M & _ & Hleft).
  assert (Hhas : has_match true amount_re (pre ++ s))
    by (now exists pre, s, s', (m_groups m)).
  destruct M as [p' M].
  apply amount_re_inv in M as (num & ws & Hnum & Hws & Hg).
  destruct (py_float_number_literal num Hnum) as [a Ha].
  unfold group.
  destruct Hg as [[Hg ->] | (cur & Hcur & Hne & Hg & ->)]; rewrite Hg; simpl;
    rewrite Ha.
  - exists pre, num, ws, [], s', a. simpl. auto 10.
  - exists pre, num, ws, cur, s', a.
    destruct cur as [|c cur]; [congruence|]. simpl. auto 10.
Qed.

Lemma extract_amount_currency text a c :
  extract_amount text = Ok (Some a, c) -> c <> None.
Proof.
  unfold extract_amount.
  destruct (search true amount_re text) as [m|]; [|discriminate].
  destruct (py_float_opt (group 1 m)); [|discriminate].
  intros H. inversion H; subst.
  destruct (group 2 m) as [[|x l]|]; simpl; discriminate.
Qed.

End AmountTheory.

(** ** What [extract_project_info] returns *)

Section ProjectTheory.
Context {rt : Runtime}.

Lemma exact_of_match : forall w cs,
  Forall2 (fun c q => atom_match false (AChar q) c = true) cs w -> cs = w.
Proof.
  induction w as [|q w IH]; intros cs Hall;
    inversion Hall as [|c q' cs' w' Hcq Hrest]; subst; auto.
  simpl in Hcq. apply N.eqb_eq in Hcq. subst c. f_equal. now apply IH.
Qed.

(** A match of the number pattern: an optional prefix "PRJ-" or "P", then
    one decimal digit or more. *)
Lemma project_number_re_inv p s g p' s' g' :
  matches false project_number_re p s g p' s' g' ->
  g' = g /\
  exists pfx ds,
    s = pfx ++ ds ++ s' /\ In pfx [[]; py "PRJ-"; py "P"] /\
    ds <> [] /\ Forall (fun c => isdecimal c = true) ds.
Proof.
  unfold project_number_re, lit. intros M.
  apply matches_Seq_inv in M as (p1 & s1 & g1 & Mb & M).
  apply matches_Bnd_inv in Mb as (_ & -> & -> & ->).
  apply matches_Seq_inv in M as (p2 & s2 & g2 & Mo & M).
  apply matches_Seq_inv in M as (p3 & s3 & g3 & Md & Mb).
  apply matches_Bnd_inv in Mb as (_ & -> & -> & ->).
  apply matches_Rep_inv in Md as (ds & -> & Hds & Hlo & _ & -> & ->).
  assert (Hne : ds <> []) by (intros ->; simpl in Hlo; lia).
  apply matches_Opt_inv in Mo as [Mo | (-> & <- & ->)].
  - apply matches_Alt_inv in Mo as [Mo | Mo];
      apply lit_re_inv in Mo as (-> & cs & -> & Hall);
      apply exact_of_match in Hall; subst cs;
      (split; [reflexivity|]); eexists _, ds; (split; [reflexivity|]);
      simpl; auto.
  - split; auto. exists [], ds. simpl. auto.
Qed.

(** A match of the name pattern always fills group 1, with a text that is
    not empty. *)
Lemma project_name_re_inv p s p' s' g' :
  matches true project_name_re p s [] p' s' g' ->
  exists name,
    name <> [] /\ g' = [(1%nat, name)] /\
    Forall (fun c => atom_match true name_class c = true) name.
Proof.
  unfold project_name_re, lit. intros M.
  apply matches_Seq_inv in M as (p1 & s1 & g1 & Mo & Mg).
  assert (g1 = []).
  { apply matches_Opt_inv in Mo as [Mo | (_ & _ & ->)]; auto.
    apply matches_Seq_inv in Mo as (p2 & s2 & g2 & Ml & Mw).
    apply lit_re_inv in Ml as (-> & _).
    now apply matches_Rep_inv in Mw as (ws & _ & _ & _ & _ & _ & ->). }
  subst g1.
  apply matches_Grp_inv in Mg as (g2 & Mr & ->).
  apply matches_Rep_inv in Mr as (name & -> & Hall & Hlo & _ & -> & ->).
  rewrite consumed_app. exists name. repeat split; auto.
  intros ->. simpl in Hlo. lia.
Qed.

(** The name pattern matches as soon as the text has a character of its
    class. *)
Lemma project_name_has_match text c :
  In c text -> atom_match true name_class c = true ->
  has_match true project_name_re text.
Proof.
  intros Hin Hc. apply in_split in Hin as (pre & post & ->).
  exists pre, (c :: post), post, [(1%nat, consumed (c :: post) post)].
  split; auto. exists (last_char (last_char None pre) [c]).
  unfold project_name_re.
  eapply M_Seq; [apply M_OptNone|].
  apply M_Grp. apply (M_Rep true name_class 1 None [c]); simpl; auto.
Qed.

Lemma ascii_digit_in_name_class c :
  isdecimal c = true -> c < 128 -> atom_match true name_class c = true.
Proof.
  unfold isdecimal. intros H Hlt. apply N.ltb_lt in Hlt. rewrite Hlt in H.
  unfold ascii_isdigit in H. simpl. unfold in_ranges. simpl. rewrite H.
  now rewrite !orb_true_r.
Qed.

(** The components of the result: the text of the leftmost match of the
    number pattern, and group 1 of the leftmost match of the name pattern;
    [None] exactly when the pattern matches nowhere. *)
Lemma project_number_None text :
  snd (extract_project_info text) = None <->
  ~ has_match false project_number_re text.
Proof.
  rewrite <- search_None. simpl.
  destruct (search false project_number_re text); split; auto; discriminate.
Qed.

Lemma project_name_Some text :
  has_match true project_name_re text ->
  exists name, fst (extract_project_info text) = Some name /\ name <> [].
Proof.
  intros H. simpl.
  destruct (search true project_name_re text) as [m|] eqn:E.
  - apply search_Some in E as (pre & s & s' & _ & _ & [p' M] & _).
    apply project_name_re_inv in M as (name & Hne & Hg & _).
    exists name. unfold group. rewrite Hg. simpl. auto.
  - apply search_None in E. contradiction.
Qed.

Lemma project_name_None text :
  fst (extract_project_info text) = None <->
  ~ has_match true project_name_re text.
Proof.
  split.
  - intros H Hm. apply project_name_Some in Hm as (name & Hn & _). congruence.
  - intros H. apply search_None in H. simpl. now rewrite H.
Qed.

(** When a project number is found, the text has a decimal digit. *)
Lemma project_number_digit text :
  snd (extract_project_info text) <> None ->
  exists c, In c text /\ isdecimal c = true.
Proof.
  intros H.
  destruct (search false project_number_re text) as [m|] eqn:E.
  - apply search_Some in E as (pre & s & s' & -> & _ & [p' M] & _).
    apply project_number_re_inv in M as (_ & pfx & ds & -> & _ & Hne & Hds).
    destruct ds as [|d ds]; [congruence|]. exists d. split.
    + apply in_or_app. right. apply in_or_app. right. now left.
    + now inversion Hds.
  - exfalso. apply H. simpl. now rewrite E.
Qed.

(** The project number that is found is never the empty string. *)
Lemma project_number_nonempty text n :
  snd (extract_project_info text) = Some n -> n <> [].
Proof.
  simpl. destruct (search false project_number_re text) as [m|] eqn:E;
    [|discriminate].
  intros H. inversion H; subst n.
  apply search_Some in E as (pre & s & s' & -> & _ & [p' M] & Htx & _).
  apply project_number_re_inv in M as (_ & pfx & ds & -> & _ & Hne & _).
  rewrite Htx. rewrite app_assoc, consumed_app.
  intros Happ. apply app_eq_nil in Happ as [_ ->]. congruence.
Qed.

End ProjectTheory.

(** ** The match that [re.search] returns for the amount pattern *)

Section FirstMatch.
Context {rt : Runtime}.

(** As [search_Some], with the call of the matcher that gave the match. *)
Lemma search_from_here ic r : forall s pre0 m,
  search_from ic r (length pre0) (last_char None pre0) s = Some m ->
  exists pre s1,
    s = pre ++ s1 /\
    match_here ic r (length (pre0 ++ pre)) (last_char None (pre0 ++ pre)) s1
      = Some m.
Proof.
  induction s as [|c s IH]; intros pre0 m H; simpl in H.
  - destruct (match_here ic r (length pre0) (last_char None pre0) []) eqn:E;
      [|discriminate].
    exists [], []. rewrite !app_nil_r. split; auto. congruence.
  - destruct (match_here ic r (length pre0) (last_char None pre0) (c :: s)) eqn:E.
    + exists [], (c :: s). rewrite !app_nil_r. split; auto. congruence.
    + replace (S (length pre0)) with (length (pre0 ++ [c])) in H
        by (rewrite length_app; simpl; lia).
      rewrite <- (last_char_snoc None pre0 c) in H.
      apply IH in H as (pre & s1 & -> & H).
      rewrite <- app_assoc in H. simpl in H.
      now exists (c :: pre), s1.
Qed.

Lemma lit_re_intro ic : forall w cs p s' g,
  Forall2 (fun c q => atom_match ic (AChar q) c = true) cs w ->
  matches ic (lit_re w) p (cs ++ s') g (last_char p cs) s' g.
Proof.
  induction w as [|q w IH]; intros cs p s' g Hall;
    inversion Hall as [|c q' cs' w' Hc Hrest]; subst; simpl.
  - constructor.
  - econstructor; [constructor; exact Hc|].
    change (last_char p (c :: cs')) with (last_char (Some c) cs').
    now apply IH.
Qed.

Lemma match_of_fold_eq : forall w cs,
  forallb iscased w = true ->
  map fold_case cs = map fold_case w ->
  Forall2 (fun c q => atom_match true (AChar q) c = true) cs w.
Proof.
  induction w as [|q w IH]; intros [|c cs] Hc Hmap; simpl in *;
    try discriminate; constructor.
  - apply andb_prop in Hc as [Hq _]. rewrite Hq. simpl.
    apply N.eqb_eq. now inversion Hmap.
  - apply andb_prop in Hc as [_ Hw]. apply IH; auto. now inversion Hmap.
Qed.

(** A currency token is matched by the pattern of the currencies. *)
Lemma currency_re_intro cur p s' g :
  currency_token cur ->
  matches true currency_re p (cur ++ s') g (last_char p cur) s' g.
Proof.
  intros (tok & Hin & Hfold). unfold currency_re, lit.
  assert (Hone : forallb iscased tok = true ->
    matches true (lit_re tok) p (cur ++ s') g (last_char p cur) s' g).
  { intros Hc. apply lit_re_intro. now apply match_of_fold_eq. }
  unfold currency_tokens in Hin.
  destruct Hin as [<- | [<- | [<- | [<- | [<- | [<- | []]]]]]].
  - apply M_AltL. now apply Hone.
  - apply M_AltR, M_AltL. now apply Hone.
  - apply M_AltR, M_AltR, M_AltL. now apply Hone.
  - apply M_AltR, M_AltR, M_AltR, M_AltL. now apply Hone.
  - apply M_AltR, M_AltR, M_AltR, M_AltR, M_AltL. now apply Hone.
  - apply M_AltR, M_AltR, M_AltR, M_AltR, M_AltR. now apply Hone.
Qed.

(** The match the matcher returns for the amount pattern at a position: a
    number literal, blanks, and the currency token that follows them when
    there is one with a word boundary after it; the match has no currency
    only when no such token follows. *)
Lemma amount_match_here i p s m :
  match_here true amount_re i p s = Some m ->
  exists num ws cur s',
    s = num ++ ws ++ cur ++ s' /\
    m_start m = i /\ m_text m = num ++ ws ++ cur /\
    number_literal num /\ Forall (fun c => isspace c = true) ws /\
    ((cur = [] /\ m_groups m = [(1%nat, num)] /\
      forall cur' post',
        s' = cur' ++ post' -> currency_token cur' ->
        at_boundary (last_char p (num ++ ws ++ cur')) post' = false) \/
     (cur <> [] /\ currency_token cur /\
      m_groups m = [(2%nat, cur); (1%nat, num)])).
Proof.
  unfold match_here, amount_re. cbn [mt]. intros H.
  destruct (at_boundary p s); [|discriminate].
  apply mt_sound in H as (p1 & s1 & g1 & Mn & H).
  apply matches_prefix in Mn as Hp. destruct Hp as (num' & Hs & ->).
  apply number_re_inv in Mn as (-> & num & -> & Hnum).
  apply app_inv_tail in Hs. subst num'.
  apply rep_sound in H as (ws & s2 & -> & Hws & _ & _ & H).
  rewrite consumed_app in H.
  match type of H with
  | match ?X with _ => _ end = _ => destruct X as [x|] eqn:E
  end.
  - inversion H; subst x. clear H.
    apply mt_sound in E as (p3 & s3 & g3 & Mc & H).
    apply matches_prefix in Mc as Hp. destruct Hp as (cur' & Hs & ->).
    apply currency_re_inv in Mc as (-> & cur & -> & Hne & Hcur).
    apply app_inv_tail in Hs. subst cur'.
    destruct (at_boundary _ s3); [|discriminate].
    inversion H; subst m; simpl. clear H.
    exists num, ws, cur, s3.
    rewrite consumed_app. repeat split; auto.
    rewrite !app_assoc. rewrite consumed_app. now rewrite <- !app_assoc.
  - destruct (at_boundary _ s2); [|discriminate].
    inversion H; subst m; simpl. clear H.
    exists num, ws, [], s2. simpl.
    repeat split; auto.
    + rewrite app_assoc, consumed_app. now rewrite app_nil_r.
    + left. repeat split; auto.
      intros cur' post' -> Hcur.
      pose proof (currency_re_intro cur' (last_char (last_char p num) ws) post'
                    [(1%nat, num)] Hcur) as Mc.
      destruct (at_boundary (last_char p (num ++ ws ++ cur')) post') eqn:Hb;
        [exfalso | reflexivity].
      eapply (mt_complete rmatch true) in Mc; [apply Mc; exact E|].
      cbv beta. rewrite <- !last_char_app. rewrite Hb. discriminate.
Qed.

(** What [re.search] returns for the amount pattern. *)
Lemma amount_search_Some text m :
  search true amount_re text = Some m ->
  exists pre num ws cur post,
    text = pre ++ num ++ ws ++ cur ++ post /\
    m_start m = length pre /\ m_text m = num ++ ws ++ cur /\
    group 1 m = Some num /\
    group 2 m = match cur with [] => None | _ => Some cur end /\
    number_literal num /\ Forall (fun c => isspace c = true) ws /\
    (cur = [] \/ currency_token cur) /\
    (cur = [] ->
     forall cur' post',
       post = cur' ++ post' -> currency_token cur' ->
       at_boundary (last_char None (pre ++ num ++ ws ++ cur')) post' = false).
Proof.
  intros H. apply (search_from_here true amount_re text []) in H
    as (pre & s & -> & H). simpl in H.
  apply amount_match_here in H
    as (num & ws & cur & s' & -> & Hst & Htx & Hnum & Hws & Hg).
  exists pre, num, ws, cur, s'. unfold group.
  destruct Hg as [(-> & Hg & Hno) | (Hne & Hcur & Hg)]; rewrite Hg; simpl.
  - repeat split; auto. intros _ cur' post' Hp Hc.
    rewrite last_char_app. now apply Hno.
  - destruct cur as [|c cur]; [congruence|].
    repeat split; auto. discriminate.
Qed.

End FirstMatch.

(** ** The extractors: claims *)

Section ExtractorClaims.
Context {rt : Runtime}.

(** The match of [re.search] seen both ways: as the value the matcher
    returns and as a leftmost match of the pattern. *)
Lemma amount_search_split text m :
  search true amount_re text = Some m ->
  exists pre num ws cur post,
    text = pre ++ num ++ ws ++ cur ++ post /\
    m_start m = length pre /\ m_text m = num ++ ws ++ cur /\
    group 1 m = Some num /\
    group 2 m = match cur with [] => None | _ => Some cur end /\
    matches_at true amount_re pre (num ++ ws ++ cur ++ post) post (m_groups m) /\
    number_literal num /\ Forall (fun c => isspace c = true) ws /\
    (cur = [] \/ currency_token cur) /\
    (cur = [] ->
     forall cur' post',
       post = cur' ++ post' -> currency_token cur' ->
       at_boundary (last_char None (pre ++ num ++ ws ++ cur')) post' = false) /\
    (forall pre1 s1 s1' g1,
        text = pre1 ++ s1 -> (length pre1 < length pre)%nat ->
        ~ matches_at true amount_re pre1 s1 s1' g1).
Proof.
  intros H.
  destruct (amount_search_Some text m H)
    as (pre & num & ws & cur & post & Htext & Hst & Htx & Hg1 & Hg2 & Hnum & Hws
        & Hcur & Hno).
  apply search_Some in H as (pre' & s & s' & Htext' & Hst' & M & Htx' & Hleft).
  assert (Hpre : pre' = pre /\ s = num ++ ws ++ cur ++ post).
  { rewrite Htext in Htext'. apply app_eq_app in Htext' as [l Hl].
    assert (length pre' = length pre) by congruence.
    destruct Hl as [[Hp Hs] | [Hp Hs]]; rewrite Hp in H; rewrite length_app in H;
      destruct l; simpl in H; try lia; rewrite app_nil_r in Hp; simpl in Hs;
      subst; auto. }
  destruct Hpre as [-> ->].
  assert (s' = post).
  { destruct M as [p' M]. apply matches_prefix in M as (cs & Hcs & _).
    rewrite Hcs, consumed_app in Htx'. rewrite Htx in Htx'. subst cs.
    rewrite <- !app_assoc in Hcs. now repeat apply app_inv_head in Hcs. }
  subst s'.
  exists pre, num, ws, cur, post.
  split; [exact Htext|]. split; [exact Hst|]. split; [exact Htx|].
  split; [exact Hg1|]. split; [exact Hg2|]. split; [exact M|].
  split; [exact Hnum|]. split; [exact Hws|]. split; [exact Hcur|].
  split; [exact Hno|].
  intros pre1 s1 s1' g1 H1 H2. apply (Hleft pre1 s1 s1' g1); auto.
Qed.

(** C4.  [extract_amount] returns what the match of [re.search] for the
    amount pattern holds.  When the pattern matches nowhere in the text the
    result is [(None, None)].  Otherwise [re.search] returns a match [m],
    the leftmost one: the text is [pre ++ num ++ ws ++ cur ++ post], the
    match starts after [pre] and reads [num ++ ws ++ cur], no match starts
    before it; [num], its group 1, is an integer or a decimal with one or
    two fractional digits; [ws] is made of blanks; [cur], its group 2, is
    one of USD, EUR, GBP, dollars, euros, pounds up to case, or is missing,
    and it is missing only when no such token with a word boundary after it
    follows the blanks.  The result is the float of [num] with the currency
    [cur] as the text spells it, or "USD" when [cur] is missing.  The three
    examples of the specification evaluate as it says, and so do texts
    where the matcher has to choose or to go back. *)
Theorem extract_amount_contract :
  (forall text,
     (search true amount_re text = None /\
      ~ has_match true amount_re text /\
      extract_amount text = Ok (None, None)) \/
     (exists m pre num ws cur post a,
        search true amount_re text = Some m /\
        text = pre ++ num ++ ws ++ cur ++ post /\
        m_start m = length pre /\ m_text m = num ++ ws ++ cur /\
        group 1 m = Some num /\
        group 2 m = match cur with [] => None | _ => Some cur end /\
        matches_at true amount_re pre (num ++ ws ++ cur ++ post) post
          (m_groups m) /\
        number_literal num /\ py_float num = Ok a /\
        Forall (fun c => isspace c = true) ws /\
        (cur = [] \/ currency_token cur) /\
        (cur = [] ->
         forall cur' post',
           post = cur' ++ post' -> currency_token cur' ->
           at_boundary (last_char None (pre ++ num ++ ws ++ cur')) post'
             = false) /\
        (forall pre1 s1 s1' g1,
            text = pre1 ++ s1 -> (length pre1 < length pre)%nat ->
            ~ matches_at true amount_re pre1 s1 s1' g1) /\
        has_match true amount_re text /\
        extract_amount text =
          Ok (Some a, Some (match cur with [] => py "USD" | _ => cur end)))) /\
  extract_amount (py "Please approve 250 for travel")
    = Ok (Some 250%Q, Some (py "USD")) /\
  extract_amount (py "120.50 EUR for supplies")
    = Ok (Some (Qred 120.50%Q), Some (py "EUR")) /\
  extract_amount (py "no numbers here") = Ok (None, None) /\
  extract_amount (py "5 usd") = Ok (Some 5%Q, Some (py "usd")) /\
  extract_amount (py "5usd") = Ok (Some 5%Q, Some (py "usd")) /\
  extract_amount (py "12.5 Dollars") = Ok (Some (Qred 12.5%Q), Some (py "Dollars")) /\
  extract_amount (py "5 usdx") = Ok (Some 5%Q, Some (py "USD")) /\
  extract_amount (py "a1 2") = Ok (Some 2%Q, Some (py "USD")) /\
  extract_amount (py "1.234") = Ok (Some 1%Q, Some (py "USD")) /\
  extract_amount (py "100USDX") = Ok (None, None).
Proof.
  split; [|repeat split; vm_compute; reflexivity].
  intros text.
  destruct (search true amount_re text) as [m|] eqn:E; [right | left].
  - destruct (amount_search_split text m E)
      as (pre & num & ws & cur & post & Htext & Hst & Htx & Hg1 & Hg2 & M & Hnum
          & Hws & Hcur & Hno & Hleft).
    destruct (py_float_number_literal num Hnum) as [a Ha].
    exists m, pre, num, ws, cur, post, a.
    assert (Hhas : has_match true amount_re text).
    { exists pre, (num ++ ws ++ cur ++ post), post, (m_groups m). auto. }
    assert (Hres : extract_amount text =
      Ok (Some a, Some (match cur with [] => py "USD" | _ => cur end))).
    { unfold extract_amount. rewrite E, Hg1, Hg2. simpl. rewrite Ha.
      destruct cur; reflexivity. }
    split; [reflexivity|]. split; [exact Htext|]. split; [exact Hst|].
    split; [exact Htx|]. split; [exact Hg1|]. split; [exact Hg2|].
    split; [exact M|]. split; [exact Hnum|]. split; [exact Ha|].
    split; [exact Hws|]. split; [exact Hcur|]. split; [exact Hno|].
    split; [exact Hleft|]. split; [exact Hhas | exact Hres].
  - split; [reflexivity|]. split; [now apply search_None|].
    unfold extract_amount. now rewrite E.
Qed.

(** C8.  Neither extractor raises.  [extract_project_info] has nothing in
    it that can raise, and each component of its pair is [None] exactly when
    its pattern matches nowhere in the text.  In [extract_amount] the call
    of [float] is the only place that can raise, and it never does: the
    result is always a pair, [(None, None)] exactly when the amount pattern
    matches nowhere, and a pair of two values otherwise. *)
Theorem extractors_never_raise text :
  (fst (extract_project_info text) = None <->
     ~ has_match true project_name_re text) /\
  (snd (extract_project_info text) = None <->
     ~ has_match false project_number_re text) /\
  (exists r, extract_amount text = Ok r) /\
  (extract_amount text = Ok (None, None) <->
     ~ has_match true amount_re text) /\
  (has_match true amount_re text ->
     exists a c, extract_amount text = Ok (Some a, Some c)).
Proof.
  split; [apply project_name_None|].
  split; [apply project_number_None|].
  destruct (extract_amount_cases text)
    as [[Hs He] | (pre & num & ws & cur & post & a & _ & _ & _ & _ & _ & _ & Hm & He)].
  - apply search_None in Hs. repeat split; eauto; try contradiction.
  - rewrite He. repeat split; eauto; try discriminate. intros H. contradiction.
Qed.

End ExtractorClaims.

(** ** One turn of the dialogue, branch by branch *)

Arguments py : simpl never.
Arguments extract_project_info : simpl never.
Arguments extract_amount : simpl never.
Arguments lower : simpl never.
Arguments split : simpl never.
Arguments summary_text : simpl never.

(** Unfolds the updates of the session and reads the fields. *)
Ltac session_simpl :=
  unfold heard, display_summary;
  unfold on_session, add_message, set_stage, set_request, set_messages;
  cbn [stage_of request_of messages sess db world_of
       project_name project_number amount currency reason].

Section TurnTheory.
Context {rt : Runtime}.

Lemma process_request_submit e u w :
  stage_of (sess w) = Confirm ->
  any_affirmative (lower u) = true ->
  db_ok e = true ->
  process_request e u w =
    Returned {| sess := {| stage_of := Project;
                           request_of := empty_request;
                           messages := [] |};
                db := db w ++ [pending_row e (request_of (sess w))] |}.
Proof.
  intros Hst Haff Hdb. unfold process_request, save_request. cbv zeta.
  rewrite Haff, Hdb. simpl. rewrite Hst. reflexivity.
Qed.

Lemma process_request_submit_fails e u w :
  stage_of (sess w) = Confirm ->
  any_affirmative (lower u) = true ->
  db_ok e = false ->
  process_request e u w = Raised OperationalError (heard u w).
Proof.
  intros Hst Haff Hdb. unfold process_request, save_request. cbv zeta.
  rewrite Haff, Hdb. simpl. rewrite Hst. reflexivity.
Qed.

Lemma process_request_absorbed e u w :
  stage_of (sess w) <> Confirm ->
  any_affirmative (lower u) = true ->
  process_request e u w = Returned (heard u w).
Proof.
  intros Hst Haff. unfold process_request. cbv zeta.
  rewrite Haff. simpl. destruct (stage_of (sess w)); try reflexivity.
  congruence.
Qed.

Lemma process_request_project e u w :
  stage_of (sess w) = Project ->
  any_affirmative (lower u) = false ->
  process_request e u w =
    Returned (on_session (project_turn (lower u)) (heard u w)).
Proof.
  intros Hst Haff. unfold process_request. cbv zeta.
  rewrite Haff. simpl. rewrite Hst. reflexivity.
Qed.

Lemma project_turn_found t ss pn pnum :
  extract_project_info t = (pn, pnum) ->
  truthy pnum = true ->
  project_turn t ss =
    {| stage_of := Amount;
       request_of :=
         {| project_name := Some (or_default pn (py "Unnamed Project"));
            project_number := pnum;
            amount := amount (request_of ss);
            currency := currency (request_of ss);
            reason := reason (request_of ss) |};
       messages :=
         (messages ss ++
          [{| text := py "✅ Project info: " ++ or_default pn (py "Unnamed Project") ++
                      py " (" ++ str_opt pnum ++ py ")";
              sender_of := Assistant |}]) ++
          [{| text := py "💬 Please specify the amount."; sender_of := Assistant |}] |}.
Proof.
  intros Hex Ht. unfold project_turn. rewrite Hex, Ht. reflexivity.
Qed.

Lemma project_turn_missed t ss pn pnum :
  extract_project_info t = (pn, pnum) ->
  truthy pnum = false ->
  project_turn t ss =
    add_message
      (py "💬 I couldn't detect a project number. Please mention it explicitly.")
      Assistant ss.
Proof.
  intros Hex Ht. unfold project_turn. rewrite Hex, Ht. reflexivity.
Qed.

Lemma process_request_amount e u w :
  stage_of (sess w) = Amount ->
  any_affirmative (lower u) = false ->
  process_request e u w =
    match amount_turn (lower u) (sess (heard u w)) with
    | Ok ss => Returned {| sess := ss; db := db w |}
    | Raise x => Raised x (heard u w)
    end.
Proof.
  intros Hst Haff. unfold process_request. cbv zeta.
  rewrite Haff. simpl. rewrite Hst. reflexivity.
Qed.

Lemma process_request_reason e u w :
  stage_of (sess w) = Reason ->
  any_affirmative (lower u) = false ->
  process_request e u w =
    Returned (on_session (reason_turn (lower u)) (heard u w)).
Proof.
  intros Hst Haff. unfold process_request. cbv zeta.
  rewrite Haff. simpl. rewrite Hst. reflexivity.
Qed.

Lemma process_request_confirm e u w :
  stage_of (sess w) = Confirm ->
  any_affirmative (lower u) = false ->
  process_request e u w =
    Returned (on_session (confirm_turn (lower u)) (heard u w)).
Proof.
  intros Hst Haff. unfold process_request. cbv zeta.
  rewrite Haff. simpl. rewrite Hst. reflexivity.
Qed.

End TurnTheory.

(** ** Lower-casing *)

Section LowerTheory.
Context {rt : Runtime}.

Lemma lower_app a b : lower (a ++ b) = lower a ++ lower b.
Proof. apply flat_map_app. Qed.

Lemma ascii_lower_char c : c < 128 -> lower (lower_char c) = lower_char c.
Proof.
  intros Hc. unfold lower_char. apply N.ltb_lt in Hc as Hb. rewrite Hb.
  unfold lower. simpl. unfold lower_char, ascii_lower, ascii_isupper, in_range.
  destruct ((65 <=? c) && (c <=? 90)) eqn:E.
  - apply andb_prop in E as [E1 E2]. apply N.leb_le in E1, E2.
    replace (c + 32 <? 128) with true by (symmetry; apply N.ltb_lt; lia).
    replace ((65 <=? c + 32) && (c + 32 <=? 90)) with false; [reflexivity|].
    symmetry. apply andb_false_iff. right. apply N.leb_gt. lia.
  - now rewrite Hb, E.
Qed.

Lemma lower_idempotent : lower_stable -> forall s, lower (lower s) = lower s.
Proof.
  intros Hst. induction s as [|c s IH]; [reflexivity|].
  change (lower (c :: s)) with (lower_char c ++ lower s).
  rewrite lower_app, IH. f_equal.
  destruct (N.lt_ge_cases c 128) as [Hc | Hc].
  - now apply ascii_lower_char.
  - apply N.ltb_ge in Hc as Hb.
    assert (Hl : lower_char c = uni_lower c)
      by (unfold lower_char; now rewrite Hb).
    rewrite Hl. now apply Hst.
Qed.

Lemma pystr_eqb_eq a b : pystr_eqb a b = true <-> a = b.
Proof.
  unfold pystr_eqb. destruct (list_eq_dec N.eq_dec a b); split; auto.
  discriminate.
Qed.

Lemma existsb_eqb_In a l : existsb (pystr_eqb a) l = true <-> In a l.
Proof.
  rewrite existsb_exists. split.
  - intros (x & Hin & Heq). apply pystr_eqb_eq in Heq. now subst.
  - intros Hin. exists a. split; auto. now apply pystr_eqb_eq.
Qed.

End LowerTheory.

(** ** The dialogue: affirmative utterances and the confirm stage *)

Section ConfirmClaims.
Context {rt : Runtime}.

(** C1.  In stage [confirm], an utterance whose lower case contains an
    affirmative token, with a store that takes the write: the request is
    appended to the store as a row with status "Pending", the stage is
    [project] again and the request is empty.  The success message and the
    prompt are added to the transcript and the transcript is emptied after
    that: what is left is the empty transcript, with neither message. *)
Theorem affirmative_in_confirm_submits_then_clears e u w :
  stage_of (sess w) = Confirm ->
  any_affirmative (lower u) = true ->
  db_ok e = true ->
  exists w',
    process_request e u w = Returned w' /\
    db w' = db w ++ [pending_row e (request_of (sess w))] /\
    row_status (pending_row e (request_of (sess w))) = py "Pending" /\
    stage_of (sess w') = Project /\
    request_of (sess w') = empty_request /\
    messages (sess w') = [] /\
    ~ In {| text := py "✅ Request submitted successfully!";
            sender_of := Assistant |} (messages (sess w')).
Proof.
  intros Hst Haff Hdb. eexists.
  split; [now apply process_request_submit|]. simpl. auto 10.
Qed.

(** C2.  In a stage other than [confirm], an utterance whose lower case
    contains an affirmative token only enters the transcript: the call
    returns with the stage, the request and the store as they were, and
    with the transcript extended by the user's message alone.  The result
    does not depend on any extractor. *)
Theorem affirmative_elsewhere_is_absorbed e u w :
  stage_of (sess w) <> Confirm ->
  any_affirmative (lower u) = true ->
  process_request e u w =
    Returned
      {| sess :=
           {| stage_of := stage_of (sess w);
              request_of := request_of (sess w);
              messages :=
                messages (sess w) ++ [{| text := u; sender_of := User |}] |};
         db := db w |}.
Proof.
  intros Hst Haff. now apply process_request_absorbed.
Qed.

(** C7.  In stage [confirm], an utterance whose lower case contains no
    affirmative token.  When its lower case is "no" or "cancel", the stage
    is [project] again, the request is empty, the cancellation message is
    added to the transcript and the store is as it was.  Otherwise the stage
    and the request are as they were and the yes/no prompt is added. *)
Theorem confirm_stage_no_or_other e u w :
  lower_stable ->
  stage_of (sess w) = Confirm ->
  any_affirmative (lower u) = false ->
  (In (lower u) [py "no"; py "cancel"] ->
   process_request e u w =
     Returned
       {| sess :=
            {| stage_of := Project;
               request_of := empty_request;
               messages :=
                 (messages (sess w) ++ [{| text := u; sender_of := User |}]) ++
                 [{| text := py "🔄 Request cancelled. Let’s start over.";
                     sender_of := Assistant |}] |};
          db := db w |}) /\
  (~ In (lower u) [py "no"; py "cancel"] ->
   process_request e u w =
     Returned
       {| sess :=
            {| stage_of := Confirm;
               request_of := request_of (sess w);
               messages :=
                 (messages (sess w) ++ [{| text := u; sender_of := User |}]) ++
                 [{| text := py "💬 Please confirm with 'yes' or 'no'.";
                     sender_of := Assistant |}] |};
          db := db w |}).
Proof.
  intros Hlow Hst Haff.
  rewrite (process_request_confirm e u w Hst Haff).
  unfold on_session, heard, confirm_turn.
  rewrite (lower_idempotent Hlow).
  split; intros Hin.
  - apply existsb_eqb_In in Hin. rewrite Hin. reflexivity.
  - destruct (existsb (pystr_eqb (lower u)) [py "no"; py "cancel"]) eqn:E.
    + apply existsb_eqb_In in E. contradiction.
    + unfold add_message. simpl. rewrite Hst. reflexivity.
Qed.

(** C9, as the code has it.  In stage [confirm], an utterance whose lower
    case contains an affirmative token, with a store that refuses the
    write: [process_request] raises the store's exception.  The stage is
    still [confirm], the request and the store are as they were, and the
    transcript has the user's message and no message of the assistant. *)
Theorem failed_write_raises_and_keeps_request e u w :
  stage_of (sess w) = Confirm ->
  any_affirmative (lower u) = true ->
  db_ok e = false ->
  exists w',
    process_request e u w = Raised OperationalError w' /\
    stage_of (sess w') = Confirm /\
    request_of (sess w') = request_of (sess w) /\
    db w' = db w /\
    messages (sess w') =
      messages (sess w) ++ [{| text := u; sender_of := User |}].
Proof.
  intros Hst Haff Hdb. exists (heard u w).
  split; [now apply process_request_submit_fails|]. simpl. auto.
Qed.

End ConfirmClaims.

(** ** The dialogue: the stages amount and reason *)

Section StageClaims.
Context {rt : Runtime}.

Lemma process_request_amount_stored e u w a c :
  stage_of (sess w) = Amount ->
  any_affirmative (lower u) = false ->
  extract_amount (lower u) = Ok (Some a, c) ->
  float_truthy a = true ->
  process_request e u w =
    Returned
      {| sess :=
           {| stage_of := Reason;
              request_of :=
                {| project_name := project_name (request_of (sess w));
                   project_number := project_number (request_of (sess w));
                   amount := Some a;
                   currency := c;
                   reason := reason (request_of (sess w)) |};
              messages :=
                ((messages (sess w) ++ [{| text := u; sender_of := User |}]) ++
                 [{| text := py "✅ Amount received: " ++ float_str a ++ py " " ++ str_opt c;
                     sender_of := Assistant |}]) ++
                 [{| text := py "💬 What’s the reason for this expense?";
                     sender_of := Assistant |}] |};
         db := db w |}.
Proof.
  intros Hst Haff Hex Htr.
  rewrite (process_request_amount e u w Hst Haff).
  unfold amount_turn. rewrite Hex. simpl. rewrite Htr. reflexivity.
Qed.

Lemma process_request_amount_reprompt e u w a c :
  stage_of (sess w) = Amount ->
  any_affirmative (lower u) = false ->
  extract_amount (lower u) = Ok (a, c) ->
  amount_truthy a = false ->
  process_request e u w =
    Returned
      {| sess :=
           {| stage_of := Amount;
              request_of := request_of (sess w);
              messages :=
                (messages (sess w) ++ [{| text := u; sender_of := User |}]) ++
                [{| text := py "💬 Couldn’t detect an amount. Please specify it.";
                    sender_of := Assistant |}] |};
         db := db w |}.
Proof.
  intros Hst Haff Hex Htr.
  rewrite (process_request_amount e u w Hst Haff).
  unfold amount_turn. rewrite Hex, Htr. unfold add_message. simpl.
  rewrite Hst. reflexivity.
Qed.

(** C5, where the code departs from it.  The utterance "0" has no
    affirmative token and [extract_amount] finds the amount 0.0 with the
    currency "USD" in it; yet in stage [amount] the session stores nothing,
    stays in stage [amount] and answers that it could not detect an amount:
    [if amount:] is false for the amount 0.0. *)
Theorem zero_amount_found_but_not_stored e w :
  stage_of (sess w) = Amount ->
  any_affirmative (lower (py "0")) = false /\
  extract_amount (lower (py "0")) = Ok (Some 0%Q, Some (py "USD")) /\
  process_request e (py "0") w =
    Returned
      {| sess :=
           {| stage_of := Amount;
              request_of := request_of (sess w);
              messages :=
                (messages (sess w) ++ [{| text := py "0"; sender_of := User |}]) ++
                [{| text := py "💬 Couldn’t detect an amount. Please specify it.";
                    sender_of := Assistant |}] |};
         db := db w |}.
Proof.
  intros Hst.
  assert (Haff : any_affirmative (lower (py "0")) = false)
    by (vm_compute; reflexivity).
  assert (Hex : extract_amount (lower (py "0")) = Ok (Some 0%Q, Some (py "USD")))
    by (vm_compute; reflexivity).
  repeat split; auto.
  now apply (process_request_amount_reprompt e (py "0") w (Some 0%Q) (Some (py "USD"))).
Qed.





End StageClaims.

(** ** The request is filled in order *)

Section Invariant.
Context {rt : Runtime}.

Lemma truthy_Some x : truthy x = true -> x <> None.
Proof. destruct x; simpl; intros H; [discriminate | discriminate H]. Qed.

Lemma amount_truthy_Some a : amount_truthy a = true -> a <> None.
Proof. destruct a; simpl; intros H; [discriminate | discriminate H]. Qed.

Lemma extract_amount_both text a c :
  extract_amount text = Ok (a, c) -> a <> None -> c <> None.
Proof.
  destruct a as [x|]; [|congruence]. intros H _.
  now apply extract_amount_currency in H.
Qed.

(** A turn leads from a state that satisfies [stage_inv] to one that does. *)
Lemma stage_inv_turn e u w :
  stage_inv (sess w) -> stage_inv (sess (world_of (process_request e u w))).
Proof.
  intros Hinv. unfold stage_inv in *.
  destruct (any_affirmative (lower u)) eqn:Haff.
  - destruct (stage_of (sess w)) eqn:Hst;
      try (rewrite process_request_absorbed by congruence; session_simpl;
           rewrite Hst; exact Hinv).
    destruct (db_ok e) eqn:Hdb.
    + rewrite process_request_submit by assumption. reflexivity.
    + rewrite process_request_submit_fails by assumption. session_simpl.
      rewrite Hst. exact Hinv.
  - destruct (stage_of (sess w)) eqn:Hst.
    + rewrite process_request_project by assumption.
      destruct (extract_project_info (lower u)) as [pn pnum] eqn:Hex.
      destruct (truthy pnum) eqn:Ht.
      * unfold on_session.
        rewrite (project_turn_found _ _ _ _ Hex Ht). session_simpl.
        rewrite Hinv. apply truthy_Some in Ht. repeat split; auto. discriminate.
      * unfold on_session.
        rewrite (project_turn_missed _ _ _ _ Hex Ht). session_simpl.
        rewrite Hst. exact Hinv.
    + rewrite process_request_amount by assumption.
      unfold amount_turn.
      destruct (extract_amount (lower u)) as [[a c]|x] eqn:Hex;
        [|session_simpl; rewrite Hst; exact Hinv].
      destruct (amount_truthy a) eqn:Ht; session_simpl;
        [|rewrite Hst; exact Hinv].
      apply amount_truthy_Some in Ht.
      destruct Hinv as (H1 & H2 & _ & _ & H5).
      repeat split; auto. eapply extract_amount_both; eassumption.
    + rewrite process_request_reason by assumption.
      unfold reason_turn.
      destruct (3 <=? length (split (lower u)))%nat; session_simpl;
        [|rewrite Hst; exact Hinv].
      destruct Hinv as (H1 & H2 & H3 & H4 & _). repeat split; auto. discriminate.
    + rewrite process_request_confirm by assumption.
      unfold confirm_turn.
      destruct (existsb (pystr_eqb (lower (lower u))) [py "no"; py "cancel"]);
        session_simpl; [reflexivity | rewrite Hst; exact Hinv].
Qed.

Lemma reachable_stage_inv w : reachable w -> stage_inv (sess w).
Proof.
  induction 1 as [w Hst Hreq | e u w Hr IH].
  - unfold stage_inv. now rewrite Hst.
  - now apply stage_inv_turn.
Qed.

Lemma stage_inv_in_order ss : stage_inv ss -> filled_in_order (request_of ss).
Proof.
  unfold stage_inv, filled_in_order.
  destruct (stage_of ss); intros H.
  - rewrite H. simpl. split; congruence.
  - destruct H as (_ & H2 & H3 & _ & H5). split; congruence.
  - destruct H as (_ & H2 & H3 & _ & H5). split; congruence.
  - destruct H as (_ & H2 & H3 & _ & H5). split; congruence.
Qed.

Lemma keeps_fields_refl r : keeps_fields r r.
Proof. unfold keeps_fields. auto 10. Qed.

(** A turn keeps the fields that are set, or it is a submission or a
    cancellation in stage [confirm] and empties the request. *)
Lemma turn_keeps_or_resets e u w :
  stage_inv (sess w) ->
  let w' := world_of (process_request e u w) in
  keeps_fields (request_of (sess w)) (request_of (sess w')) \/
  (stage_of (sess w) = Confirm /\
   (any_affirmative (lower u) = true \/
    In (lower (lower u)) [py "no"; py "cancel"]) /\
   stage_of (sess w') = Project /\
   request_of (sess w') = empty_request).
Proof.
  intros Hinv. unfold stage_inv in Hinv. cbv zeta.
  destruct (any_affirmative (lower u)) eqn:Haff.
  - destruct (stage_of (sess w)) eqn:Hst;
      try (rewrite process_request_absorbed by congruence; left;
           apply keeps_fields_refl).
    destruct (db_ok e) eqn:Hdb.
    + rewrite process_request_submit by assumption. right. session_simpl. auto.
    + rewrite process_request_submit_fails by assumption. left.
      apply keeps_fields_refl.
  - destruct (stage_of (sess w)) eqn:Hst.
    + left. rewrite Hinv. unfold keeps_fields, empty_request.
      cbn [project_name project_number amount currency reason].
      repeat split; discriminate.
    + left. rewrite process_request_amount by assumption.
      unfold amount_turn.
      destruct (extract_amount (lower u)) as [[a c]|x];
        [|apply keeps_fields_refl].
      destruct (amount_truthy a); session_simpl; [|apply keeps_fields_refl].
      destruct Hinv as (_ & _ & H3 & H4 & _).
      unfold keeps_fields. session_simpl. rewrite H3, H4.
      repeat split; auto; discriminate.
    + left. rewrite process_request_reason by assumption.
      unfold reason_turn.
      destruct (3 <=? length (split (lower u)))%nat; session_simpl;
        [|apply keeps_fields_refl].
      destruct Hinv as (_ & _ & _ & _ & H5).
      unfold keeps_fields. session_simpl. rewrite H5.
      repeat split; auto; discriminate.
    + rewrite process_request_confirm by assumption.
      unfold confirm_turn.
      destruct (existsb (pystr_eqb (lower (lower u))) [py "no"; py "cancel"])
        eqn:E; session_simpl; [right | left; apply keeps_fields_refl].
      apply existsb_eqb_In in E. auto.
Qed.

End Invariant.

(** ** The dialogue: claims on every reachable state and on the project stage *)

Section SessionClaims.
Context {rt : Runtime}.

(** C3.  In every state that a conversation reaches from stage [project]
    with an empty request: the request holds exactly the fields of the
    stages that are passed ([stage_inv]), so the amount is set only when the
    project number is and the reason only when the amount is; and a turn
    leaves every field that is set as it is, unless it is a submission or a
    cancellation in stage [confirm], which empties the whole request and
    goes back to stage [project]. *)
Theorem request_filled_in_order w :
  reachable w ->
  filled_in_order (request_of (sess w)) /\
  stage_inv (sess w) /\
  forall e u,
    let w' := world_of (process_request e u w) in
    keeps_fields (request_of (sess w)) (request_of (sess w')) \/
    (stage_of (sess w) = Confirm /\
     (any_affirmative (lower u) = true \/
      In (lower (lower u)) [py "no"; py "cancel"]) /\
     stage_of (sess w') = Project /\
     request_of (sess w') = empty_request).
Proof.
  intros Hr. apply reachable_stage_inv in Hr as Hinv.
  split; [now apply stage_inv_in_order|]. split; [exact Hinv|].
  intros e u. now apply turn_keeps_or_resets.
Qed.

(** C10, as the code has it.  For a text whose decimal digits are all
    ASCII digits: when [extract_project_info] finds a project number it
    finds a project name too, and the name is not empty.  So in stage
    [project], for an utterance whose lower case has only ASCII digits and
    no affirmative token and in which a project number is found, the name
    that is stored is the name found, not "Unnamed Project". *)
Theorem project_name_found_with_number :
  (forall text,
     ascii_digits text ->
     snd (extract_project_info text) <> None ->
     exists name, fst (extract_project_info text) = Some name /\ name <> []) /\
  (forall e u w,
     ascii_digits (lower u) ->
     stage_of (sess w) = Project ->
     any_affirmative (lower u) = false ->
     snd (extract_project_info (lower u)) <> None ->
     let w' := world_of (process_request e u w) in
     stage_of (sess w') = Amount /\
     project_name (request_of (sess w')) = fst (extract_project_info (lower u)) /\
     project_number (request_of (sess w')) = snd (extract_project_info (lower u))).
Proof.
  assert (Hname : forall text,
     ascii_digits text ->
     snd (extract_project_info text) <> None ->
     exists name, fst (extract_project_info text) = Some name /\ name <> []).
  { intros text Hascii Hnum.
    apply project_number_digit in Hnum as (c & Hin & Hc).
    apply project_name_Some.
    apply (project_name_has_match text c Hin).
    apply ascii_digit_in_name_class; auto. }
  split; [exact Hname|].
  intros e u w Hascii Hst Haff Hnum. cbv zeta.
  destruct (Hname _ Hascii Hnum) as (name & Hn & Hne).
  rewrite (process_request_project e u w Hst Haff).
  destruct (extract_project_info (lower u)) as [pn pnum] eqn:Hex.
  simpl in Hn, Hnum |- *. subst pn.
  destruct pnum as [n|]; [|congruence].
  assert (Hnn : n <> []).
  { apply (project_number_nonempty (lower u)). now rewrite Hex. }
  assert (Ht : truthy (Some n) = true) by (destruct n; [congruence | reflexivity]).
  unfold on_session. rewrite (project_turn_found _ _ _ _ Hex Ht).
  session_simpl. repeat split; auto.
  destruct name; [congruence | reflexivity].
Qed.

End SessionClaims.

(** ** The excerpt of the Unicode tables meets the condition on lower case *)

Lemma excerpt_lower_stable : @lower_stable excerpt.
Proof.
  intros c Hc. apply N.ltb_ge in Hc as Hb. simpl. unfold excerpt_lower.
  destruct (latin1_isupper c) eqn:E; unfold lower; simpl; unfold lower_char.
  - unfold latin1_isupper, in_range in E.
    apply andb_prop in E as [E _]. apply andb_prop in E as [E1 E2].
    apply N.leb_le in E1, E2.
    replace (c + 32 <? 128) with false by (symmetry; apply N.ltb_ge; lia).
    simpl. unfold excerpt_lower.
    replace (latin1_isupper (c + 32)) with false; [reflexivity|].
    symmetry. unfold latin1_isupper, in_range.
    apply andb_false_iff. left. apply andb_false_iff. right.
    apply N.leb_gt. lia.
  - rewrite Hb. simpl. unfold excerpt_lower. now rewrite E.
Qed.

Lemma ascii_text_digits {rt : Runtime} t :
  forallb (fun c => c <? 128) t = true -> ascii_digits t.
Proof.
  intros H c Hin _. rewrite forallb_forall in H.
  apply N.ltb_lt. now apply H.
Qed.

(** ** The statements at concrete sessions, with the excerpt of the tables *)

Lemma affirmative_in_confirm_at_yes :
  stage_of (sess at_confirm) = Confirm /\
  any_affirmative (lower (py "yes")) = true /\
  db_ok sample_env = true /\
  exists w',
    process_request sample_env (py "yes") at_confirm = Returned w' /\
    db w' = db at_confirm ++ [pending_row sample_env (request_of (sess at_confirm))] /\
    row_status (pending_row sample_env (request_of (sess at_confirm))) = py "Pending" /\
    stage_of (sess w') = Project /\
    request_of (sess w') = empty_request /\
    messages (sess w') = [] /\
    ~ In {| text := py "✅ Request submitted successfully!";
            sender_of := Assistant |} (messages (sess w')).
Proof.
  split; [reflexivity|]. split; [vm_compute; reflexivity|].
  split; [reflexivity|].
  apply (affirmative_in_confirm_submits_then_clears
           sample_env (py "yes") at_confirm);
    [reflexivity | vm_compute; reflexivity | reflexivity].
Defined.

Lemma affirmative_elsewhere_at_yes :
  stage_of (sess at_amount) <> Confirm /\
  any_affirmative (lower (py "Yes")) = true /\
  process_request sample_env (py "Yes") at_amount =
    Returned
      {| sess :=
           {| stage_of := stage_of (sess at_amount);
              request_of := request_of (sess at_amount);
              messages :=
                messages (sess at_amount) ++
                [{| text := py "Yes"; sender_of := User |}] |};
         db := db at_amount |}.
Proof.
  split; [discriminate|]. split; [vm_compute; reflexivity|].
  apply (affirmative_elsewhere_is_absorbed sample_env (py "Yes") at_amount);
    [discriminate | vm_compute; reflexivity].
Defined.

Lemma confirm_stage_at_cancel :
  lower_stable /\
  stage_of (sess at_confirm) = Confirm /\
  any_affirmative (lower (py "Cancel")) = false /\
  (In (lower (py "Cancel")) [py "no"; py "cancel"] ->
   process_request sample_env (py "Cancel") at_confirm =
     Returned
       {| sess :=
            {| stage_of := Project;
               request_of := empty_request;
               messages :=
                 (messages (sess at_confirm) ++
                  [{| text := py "Cancel"; sender_of := User |}]) ++
                 [{| text := py "🔄 Request cancelled. Let’s start over.";
                     sender_of := Assistant |}] |};
          db := db at_confirm |}) /\
  (~ In (lower (py "Cancel")) [py "no"; py "cancel"] ->
   process_request sample_env (py "Cancel") at_confirm =
     Returned
       {| sess :=
            {| stage_of := Confirm;
               request_of := request_of (sess at_confirm);
               messages :=
                 (messages (sess at_confirm) ++
                  [{| text := py "Cancel"; sender_of := User |}]) ++
                 [{| text := py "💬 Please confirm with 'yes' or 'no'.";
                     sender_of := Assistant |}] |};
          db := db at_confirm |}).
Proof.
  split; [exact excerpt_lower_stable|]. split; [reflexivity|].
  split; [vm_compute; reflexivity|].
  apply (confirm_stage_no_or_other sample_env (py "Cancel") at_confirm);
    [exact excerpt_lower_stable | reflexivity | vm_compute; reflexivity].
Defined.

Lemma failed_write_at_yes :
  stage_of (sess at_confirm) = Confirm /\
  any_affirmative (lower (py "yes")) = true /\
  db_ok failing_env = false /\
  exists w',
    process_request failing_env (py "yes") at_confirm = Raised OperationalError w' /\
    stage_of (sess w') = Confirm /\
    request_of (sess w') = request_of (sess at_confirm) /\
    db w' = db at_confirm /\
    messages (sess w') =
      messages (sess at_confirm) ++ [{| text := py "yes"; sender_of := User |}].
Proof.
  split; [reflexivity|]. split; [vm_compute; reflexivity|].
  split; [reflexivity|].
  apply (failed_write_raises_and_keeps_request failing_env (py "yes") at_confirm);
    [reflexivity | vm_compute; reflexivity | reflexivity].
Defined.

(** C9 fails as it is stated: when the store refuses the write, the only
    message added to the transcript is the user's; no failure message is
    emitted, the call raises. *)
Lemma failed_write_emits_no_message :
  process_request failing_env (py "yes") at_confirm =
    Raised OperationalError (heard (py "yes") at_confirm) /\
  messages (sess (heard (py "yes") at_confirm)) =
    welcome ++ [{| text := py "yes"; sender_of := User |}] /\
  filter (fun m => match sender_of m with Assistant => true | User => false end)
         (messages (sess (heard (py "yes") at_confirm))) = welcome.
Proof.
  split; [|split]; vm_compute; reflexivity.
Qed.

Lemma zero_amount_at_amount :
  stage_of (sess at_amount) = Amount /\
  any_affirmative (lower (py "0")) = false /\
  extract_amount (lower (py "0")) = Ok (Some 0%Q, Some (py "USD")) /\
  process_request sample_env (py "0") at_amount =
    Returned
      {| sess :=
           {| stage_of := Amount;
              request_of := request_of (sess at_amount);
              messages :=
                (messages (sess at_amount) ++
                 [{| text := py "0"; sender_of := User |}]) ++
                [{| text := py "💬 Couldn’t detect an amount. Please specify it.";
                    sender_of := Assistant |}] |};
         db := db at_amount |}.
Proof.
  split; [reflexivity|].
  apply (zero_amount_found_but_not_stored sample_env at_amount). reflexivity.
Defined.

Lemma sigma_free_ascii t :
  forallb (fun c => c <? 128) t = true -> sigma_free t.
Proof.
  intros H Hin. rewrite forallb_forall in H. apply H in Hin. discriminate Hin.
Qed.


(** The reason is the normalized utterance: the capitals that are typed are
    not kept. *)
Example reason_is_stored_in_lower_case :
  stage_of (sess at_reason) = Reason /\
  any_affirmative (lower (py "Client dinner with partners")) = false /\
  (3 <= length (split (py "Client dinner with partners")))%nat /\
  reason (request_of (sess (world_of
    (process_request sample_env (py "Client dinner with partners") at_reason))))
    = Some (py "client dinner with partners").
Proof.
  split; [reflexivity|]. split; [vm_compute; reflexivity|].
  split; [vm_compute; lia|]. vm_compute; reflexivity.
Qed.

Lemma request_filled_in_order_at_amount :
  reachable (world_of (process_request sample_env (py "project 4021") at_project)) /\
  filled_in_order (request_of (sess (world_of
    (process_request sample_env (py "project 4021") at_project)))) /\
  stage_inv (sess (world_of
    (process_request sample_env (py "project 4021") at_project))) /\
  forall e u,
    let w := world_of (process_request sample_env (py "project 4021") at_project) in
    let w' := world_of (process_request e u w) in
    keeps_fields (request_of (sess w)) (request_of (sess w')) \/
    (stage_of (sess w) = Confirm /\
     (any_affirmative (lower u) = true \/
      In (lower (lower u)) [py "no"; py "cancel"]) /\
     stage_of (sess w') = Project /\
     request_of (sess w') = empty_request).
Proof.
  assert (Hr : reachable
    (world_of (process_request sample_env (py "project 4021") at_project))).
  { apply reach_turn. apply reach_start; reflexivity. }
  split; [exact Hr|].
  exact (request_filled_in_order _ Hr).
Defined.

Lemma project_name_found_at_4021 :
  ascii_digits (py "project 4021") /\
  snd (extract_project_info (py "project 4021")) <> None /\
  (exists name,
     fst (extract_project_info (py "project 4021")) = Some name /\ name <> []) /\
  ascii_digits (lower (py "Project 4021")) /\
  stage_of (sess at_project) = Project /\
  any_affirmative (lower (py "Project 4021")) = false /\
  snd (extract_project_info (lower (py "Project 4021"))) <> None /\
  (let w' := world_of (process_request sample_env (py "Project 4021") at_project) in
   stage_of (sess w') = Amount /\
   project_name (request_of (sess w')) =
     fst (extract_project_info (lower (py "Project 4021"))) /\
   project_number (request_of (sess w')) =
     snd (extract_project_info (lower (py "Project 4021")))).
Proof.
  assert (Ha : ascii_digits (py "project 4021"))
    by (apply ascii_text_digits; vm_compute; reflexivity).
  assert (Hn : snd (extract_project_info (py "project 4021")) <> None)
    by (vm_compute; discriminate).
  assert (Ha' : ascii_digits (lower (py "Project 4021")))
    by (apply ascii_text_digits; vm_compute; reflexivity).
  assert (Hf : any_affirmative (lower (py "Project 4021")) = false)
    by (vm_compute; reflexivity).
  assert (Hn' : snd (extract_project_info (lower (py "Project 4021"))) <> None)
    by (vm_compute; discriminate).
  split; [exact Ha|]. split; [exact Hn|].
  split; [exact (proj1 project_name_found_with_number (py "project 4021") Ha Hn)|].
  split; [exact Ha'|]. split; [reflexivity|]. split; [exact Hf|].
  split; [exact Hn'|].
  exact (proj2 project_name_found_with_number
           sample_env (py "Project 4021") at_project Ha' eq_refl Hf Hn').
Defined.

(** C10 fails as it is stated: for the text made of the ARABIC-INDIC DIGIT
    THREE, [\d] matches and gives the project number, the class of the name
    pattern has no such character and no name is found; in stage [project]
    the name that is stored is "Unnamed Project". *)
Lemma unnamed_project_is_stored :
  extract_project_info [1635] = (None, Some [1635]) /\
  any_affirmative (lower [1635]) = false /\
  stage_of (sess at_project) = Project /\
  project_name (request_of (sess (world_of
    (process_request sample_env [1635] at_project))))
    = Some (py "Unnamed Project") /\
  ~ (forall text,
       snd (extract_project_info text) <> None ->
       exists name, fst (extract_project_info text) = Some name /\ name <> []).
Proof.
  assert (He : extract_project_info [1635] = (None, Some [1635]))
    by (vm_compute; reflexivity).
  split; [exact He|]. split; [vm_compute; reflexivity|].
  split; [reflexivity|]. split; [vm_compute; reflexivity|].
  intros H. destruct (H [1635]) as (name & Hn & _).
  - rewrite He. discriminate.
  - rewrite He in Hn. discriminate.
Qed.

(** The scenario of the specification: four utterances from the start of a
    conversation to the submission. *)
Example happy_path :
  let w1 := world_of (process_request sample_env (py "project 4021") at_project) in
  let w2 := world_of (process_request sample_env (py "300 USD") w1) in
  let w3 := world_of (process_request sample_env (py "client dinner with partners") w2) in
  let w4 := world_of (process_request sample_env (py "yes") w3) in
  stage_of (sess w1) = Amount /\
  stage_of (sess w2) = Reason /\
  stage_of (sess w3) = Confirm /\
  request_of (sess w3) =
    {| project_name := Some (py "4021");
       project_number := Some (py "4021");
       amount := Some 300%Q;
       currency := Some (py "usd");
       reason := Some (py "client dinner with partners") |} /\
  db w4 = [pending_row sample_env (request_of (sess w3))] /\
  stage_of (sess w4) = Project /\
  request_of (sess w4) = empty_request /\
  messages (sess w4) = [].
Proof.
  vm_compute. repeat split; reflexivity.
Qed.

(** The example of the specification for [extract_project_info]. *)
Example project_info_example :
  extract_project_info (py "project PRJ-4021 renovation")
    = (Some (py "PRJ-4021"), Some (py "PRJ-4021")) /\
  extract_project_info (lower (py "project PRJ-4021 renovation"))
    = (Some (py "prj-4021"), Some (py "4021")).
Proof.
  split; vm_compute; reflexivity.
Qed.

(** * Further properties of the code *)

(** ** What a turn can do to the stage, the transcript and the store *)

Section TurnShape.
Context {rt : Runtime}.

(** Either the turn is a submission that went through, or it leaves the
    store as it is and adds to the transcript the user's message followed
    by at most two messages of the assistant; the stage stays or moves to
    the next one. *)
Lemma turn_cases e u w :
  let w' := world_of (process_request e u w) in
  (stage_of (sess w) = Confirm /\
   any_affirmative (lower u) = true /\ db_ok e = true /\
   process_request e u w =
     Returned {| sess := {| stage_of := Project;
                            request_of := empty_request;
                            messages := [] |};
                 db := db w ++ [pending_row e (request_of (sess w))] |}) \/
  (db w' = db w /\
   (stage_of (sess w') = stage_of (sess w) \/
    (stage_of (sess w') = next_stage (stage_of (sess w)) /\
     any_affirmative (lower u) = false)) /\
   exists tail,
     messages (sess w') =
       messages (sess w) ++ {| text := u; sender_of := User |} :: tail /\
     Forall from_assistant tail /\ (length tail <= 2)%nat).
Proof.
  cbv zeta.
  destruct (any_affirmative (lower u)) eqn:Haff.
  - destruct (stage_of (sess w)) eqn:Hst;
      try (right; rewrite process_request_absorbed by congruence;
           session_simpl; split; [reflexivity|]; split; [auto|];
           exists []; repeat split; auto).
    destruct (db_ok e) eqn:Hdb.
    + left. repeat split; auto. now apply process_request_submit.
    + right. rewrite process_request_submit_fails by assumption.
      session_simpl. split; [reflexivity|]. split; [auto|].
      exists []. repeat split; auto.
  - right. destruct (stage_of (sess w)) eqn:Hst.
    + rewrite process_request_project by assumption.
      destruct (extract_project_info (lower u)) as [pn pnum] eqn:Hex.
      destruct (truthy pnum) eqn:Ht; unfold on_session.
      * rewrite (project_turn_found _ _ _ _ Hex Ht). session_simpl.
        split; [reflexivity|]. split; [right; auto|].
        eexists [_; _]. rewrite <- !app_assoc. simpl.
        repeat split; auto. repeat constructor.
      * rewrite (project_turn_missed _ _ _ _ Hex Ht). session_simpl.
        split; [reflexivity|]. split; [auto|].
        eexists [_]. rewrite <- !app_assoc. simpl.
        repeat split; auto. repeat constructor.
    + rewrite process_request_amount by assumption. unfold amount_turn.
      destruct (extract_amount (lower u)) as [[a c]|x].
      * destruct (amount_truthy a); session_simpl.
        -- split; [reflexivity|]. split; [right; auto|].
           eexists [_; _]. rewrite <- !app_assoc. simpl.
           repeat split; auto. repeat constructor.
        -- split; [reflexivity|]. split; [auto|].
           eexists [_]. rewrite <- !app_assoc. simpl.
           repeat split; auto. repeat constructor.
      * session_simpl. split; [reflexivity|]. split; [auto|].
        exists []. repeat split; auto.
    + rewrite process_request_reason by assumption. unfold reason_turn.
      destruct (3 <=? length (split (lower u)))%nat; session_simpl.
      * split; [reflexivity|]. split; [right; auto|].
        eexists [_]. rewrite <- !app_assoc. simpl.
        repeat split; auto. repeat constructor.
      * split; [reflexivity|]. split; [auto|].
        eexists [_]. rewrite <- !app_assoc. simpl.
        repeat split; auto. repeat constructor.
    + rewrite process_request_confirm by assumption. unfold confirm_turn.
      destruct (existsb (pystr_eqb (lower (lower u))) [py "no"; py "cancel"]);
        session_simpl.
      * split; [reflexivity|]. split; [right; auto|].
        eexists [_]. rewrite <- !app_assoc. simpl.
        repeat split; auto. repeat constructor.
      * split; [reflexivity|]. split; [auto|].
        eexists [_]. rewrite <- !app_assoc. simpl.
        repeat split; auto. repeat constructor.
Qed.

(** X1.  A turn never skips a stage and never goes back: after any
    utterance the stage is the one before the turn or the one that follows
    it in the cycle project, amount, reason, confirm, project. *)
Theorem stage_stays_or_advances e u w :
  let s := stage_of (sess w) in
  let s' := stage_of (sess (world_of (process_request e u w))) in
  s' = s \/ s' = next_stage s.
Proof.
  cbv zeta.
  destruct (turn_cases e u w) as [(Hst & _ & _ & Heq) | (_ & [H | [H _]] & _)];
    auto.
  rewrite Heq, Hst. right. reflexivity.
Qed.

(** X2.  The transcript only grows, except when a submission goes through.
    After a turn, either the session was in stage [confirm], the utterance
    was affirmative, the write succeeded and the transcript is empty; or
    the transcript is the one before the turn, followed by the user's
    message, followed by at most two messages, all of the assistant. *)
Theorem transcript_grows_or_is_cleared e u w :
  let w' := world_of (process_request e u w) in
  (stage_of (sess w) = Confirm /\ any_affirmative (lower u) = true /\
   db_ok e = true /\ messages (sess w') = []) \/
  (exists tail,
     messages (sess w') =
       messages (sess w) ++ {| text := u; sender_of := User |} :: tail /\
     Forall from_assistant tail /\ (length tail <= 2)%nat).
Proof.
  cbv zeta.
  destruct (turn_cases e u w) as [(Hst & Haff & Hdb & Heq) | (_ & _ & H)];
    [left | right; exact H].
  rewrite Heq. auto.
Qed.

(** X3.  The store is only appended to, by one row at a time and only by a
    confirmation: after a turn the store is the one before the turn, or
    the one before the turn followed by the row of the request, and then
    the session was in stage [confirm], the utterance was affirmative and
    the write succeeded. *)
Theorem store_is_append_only e u w :
  let w' := world_of (process_request e u w) in
  db w' = db w \/
  (stage_of (sess w) = Confirm /\ any_affirmative (lower u) = true /\
   db_ok e = true /\
   db w' = db w ++ [pending_row e (request_of (sess w))]).
Proof.
  cbv zeta.
  destruct (turn_cases e u w) as [(Hst & Haff & Hdb & Heq) | (H & _)];
    [right | left; exact H].
  rewrite Heq. auto.
Qed.

(** X4.  In a conversation that starts in stage [project] with an empty
    request, every row that a turn writes is complete: its five fields are
    set, its status is "Pending" and its timestamp is the time of the
    write. *)
Theorem written_rows_are_complete e u w :
  reachable w ->
  let w' := world_of (process_request e u w) in
  db w' = db w \/
  exists r,
    db w' = db w ++ [r] /\ row_complete r /\
    row_status r = py "Pending" /\ row_timestamp r = now e.
Proof.
  intros Hr. cbv zeta. apply reachable_stage_inv in Hr. unfold stage_inv in Hr.
  destruct (turn_cases e u w) as [(Hst & Haff & Hdb & Heq) | (H & _)];
    [right | left; exact H].
  rewrite Heq. rewrite Hst in Hr.
  exists (pending_row e (request_of (sess w))).
  repeat split; try reflexivity; apply Hr.
Qed.

Lemma run_writes_nothing_early : forall turns w,
  (stage_rank (stage_of (sess w)) + length turns <= 3)%nat ->
  db (run turns w) = db w.
Proof.
  induction turns as [|[e u] turns IH]; intros w Hlen; [reflexivity|].
  simpl in Hlen. simpl run.
  assert (Hworld :
    db (world_of (process_request e u w)) = db w /\
    (stage_rank (stage_of (sess (world_of (process_request e u w))))
     <= S (stage_rank (stage_of (sess w))))%nat).
  { destruct (turn_cases e u w)
      as [(Hst & _) | (Hdb & [H | [H _]] & _)].
    - rewrite Hst in Hlen. simpl in Hlen. lia.
    - rewrite H. auto.
    - rewrite H. split; [exact Hdb|].
      destruct (stage_of (sess w)); simpl; lia. }
  destruct Hworld as [Hdb Hrank].
  rewrite IH; [exact Hdb | lia].
Qed.

(** X5.  Nothing is written to the store before the fourth utterance:
    from a session in stage [project], whatever three utterances or fewer
    are processed, with whatever the clock and the store answer, the store
    is left as it was. *)
Theorem no_row_before_four_utterances turns w :
  stage_of (sess w) = Project ->
  (length turns <= 3)%nat ->
  db (run turns w) = db w.
Proof.
  intros Hst Hlen. apply run_writes_nothing_early. rewrite Hst. simpl. lia.
Qed.

End TurnShape.

(** ** Utterances in which nothing is found *)

Section Misses.
Context {rt : Runtime}.

Lemma number_literal_digit num :
  number_literal num -> exists d rest, num = d :: rest /\ isdecimal d = true.
Proof.
  intros (ds & fs & Hne & Hds & _ & _ & H).
  destruct ds as [|d ds]; [congruence|]. inversion Hds; subst.
  destruct H as [-> | [_ ->]]; simpl; eauto.
Qed.

(** The amount pattern matches only in a text that has a decimal digit. *)
Lemma amount_match_digit text :
  has_match true amount_re text -> exists c, In c text /\ isdecimal c = true.
Proof.
  intros (pre & s & s' & g & -> & [p' M]).
  apply amount_re_inv in M as (num & ws & Hnum & _ & H).
  apply number_literal_digit in Hnum as (d & rest & -> & Hd).
  exists d. split; auto. apply in_or_app. right.
  destruct H as [[_ ->] | (cur & _ & _ & _ & ->)]; now left.
Qed.

Lemma no_digit_no_amount text :
  (forall c, In c text -> isdecimal c = false) ->
  extract_amount text = Ok (None, None).
Proof.
  intros Hno.
  destruct (extract_amount_cases text)
    as [[_ He] | (pre & num & ws & cur & post & a & _ & _ & _ & _ & _ & _ & Hm & _)];
    auto.
  apply amount_match_digit in Hm as (c & Hin & Hc).
  rewrite (Hno c Hin) in Hc. discriminate.
Qed.

Lemma no_digit_no_number text :
  (forall c, In c text -> isdecimal c = false) ->
  snd (extract_project_info text) = None.
Proof.
  intros Hno.
  destruct (snd (extract_project_info text)) as [n|] eqn:E; auto.
  assert (Hn : snd (extract_project_info text) <> None) by congruence.
  apply project_number_digit in Hn as (c & Hin & Hc).
  rewrite (Hno c Hin) in Hc. discriminate.
Qed.

(** X6.  An utterance in which nothing can be found changes nothing but the
    transcript, in every stage: when its lower case has no decimal digit, no
    affirmative token, fewer than three tokens, and is neither "no" nor
    "cancel", the stage, the request and the store are as they were, and
    the transcript gains the user's message and one prompt of the
    assistant.  The empty utterance is such an utterance. *)
Theorem miss_changes_nothing e u w :
  (forall c, In c (lower u) -> isdecimal c = false) ->
  any_affirmative (lower u) = false ->
  (length (split (lower u)) < 3)%nat ->
  ~ In (lower (lower u)) [py "no"; py "cancel"] ->
  exists prompt,
    process_request e u w =
      Returned
        {| sess :=
             {| stage_of := stage_of (sess w);
                request_of := request_of (sess w);
                messages :=
                  messages (sess w) ++
                  [{| text := u; sender_of := User |};
                   {| text := prompt; sender_of := Assistant |}] |};
           db := db w |}.
Proof.
  intros Hno Haff Hlen Hcancel.
  destruct (stage_of (sess w)) eqn:Hst.
  - rewrite process_request_project by assumption.
    destruct (extract_project_info (lower u)) as [pn pnum] eqn:Hex.
    pose proof (no_digit_no_number _ Hno) as Hn. rewrite Hex in Hn.
    simpl in Hn. subst pnum. unfold on_session.
    rewrite (project_turn_missed _ _ _ _ Hex eq_refl). session_simpl.
    rewrite Hst, <- app_assoc. eexists. reflexivity.
  - rewrite process_request_amount by assumption. unfold amount_turn.
    rewrite (no_digit_no_amount _ Hno). cbn [amount_truthy]. session_simpl.
    rewrite Hst, <- app_assoc. eexists. reflexivity.
  - rewrite process_request_reason by assumption. unfold reason_turn.
    apply Nat.leb_gt in Hlen. rewrite Hlen. session_simpl.
    rewrite Hst, <- app_assoc. eexists. reflexivity.
  - rewrite process_request_confirm by assumption. unfold confirm_turn.
    destruct (existsb (pystr_eqb (lower (lower u))) [py "no"; py "cancel"])
      eqn:E.
    + apply existsb_eqb_In in E. contradiction.
    + session_simpl. rewrite Hst, <- app_assoc. eexists. reflexivity.
Qed.

End Misses.

(** ** The values a request holds *)

Section Values.
Context {rt : Runtime}.

Lemma Qred_nonneg q : (0 <= q)%Q -> (0 <= Qred q)%Q.
Proof. intros H. now rewrite Qred_correct. Qed.

Lemma py_float_nonneg s a : py_float s = Ok a -> (0 <= a)%Q.
Proof.
  unfold py_float. destruct (split_dot s) as [ip fp]. cbv zeta.
  match goal with
  | |- context [digits_value 0 ?t] => destruct t; [intros H; discriminate H|]
  end.
  match goal with
  | |- context [digits_value 0 ?t] =>
    destruct (digits_value 0 t) as [n|]; [|intros H; discriminate H]
  end.
  intros H.
  apply (f_equal (fun r => match r with Ok x => x | Raise _ => 0%Q end)) in H.
  cbv beta iota in H. rewrite <- H. apply Qred_nonneg.
  unfold Qle. simpl. lia.
Qed.

Lemma extract_amount_nonneg text a c :
  extract_amount text = Ok (Some a, c) -> (0 <= a)%Q.
Proof.
  unfold extract_amount.
  destruct (search true amount_re text) as [m|]; [|discriminate].
  destruct (group 1 m) as [t|]; simpl; [|discriminate].
  destruct (py_float t) as [x|] eqn:E; [|discriminate].
  intros H. inversion H; subst. now apply py_float_nonneg in E.
Qed.

Lemma extract_amount_currency_nonempty text a c :
  extract_amount text = Ok (a, Some c) -> c <> [].
Proof.
  unfold extract_amount.
  destruct (search true amount_re text) as [m|]; [|discriminate].
  destruct (py_float_opt (group 1 m)); [|discriminate].
  destruct (group 2 m) as [[|x l]|]; simpl; intros H; inversion H;
    try discriminate; try (vm_compute; discriminate).
Qed.

Lemma float_truthy_pos a : (0 <= a)%Q -> float_truthy a = true -> (0 < a)%Q.
Proof.
  unfold float_truthy. intros Hle Ht. apply negb_true_iff in Ht.
  apply Qle_lteq in Hle as [Hlt | Heq]; auto.
  symmetry in Heq. apply Qeq_bool_iff in Heq. congruence.
Qed.

Lemma or_default_nonempty x d : d <> [] -> or_default x d <> [].
Proof. destruct x as [[|c s]|]; simpl; auto; discriminate. Qed.

Lemma values_accepted_turn e u w :
  values_accepted (request_of (sess w)) ->
  values_accepted (request_of (sess (world_of (process_request e u w)))).
Proof.
  intros Hv.
  assert (Hempty : values_accepted empty_request).
  { unfold values_accepted, empty_request; simpl. repeat split; discriminate. }
  destruct (any_affirmative (lower u)) eqn:Haff.
  - destruct (stage_of (sess w)) eqn:Hst;
      try (rewrite process_request_absorbed by congruence; exact Hv).
    destruct (db_ok e) eqn:Hdb.
    + rewrite process_request_submit by assumption. exact Hempty.
    + rewrite process_request_submit_fails by assumption. exact Hv.
  - destruct (stage_of (sess w)) eqn:Hst.
    + rewrite process_request_project by assumption.
      destruct (extract_project_info (lower u)) as [pn pnum] eqn:Hex.
      destruct (truthy pnum) eqn:Ht; unfold on_session.
      * rewrite (project_turn_found _ _ _ _ Hex Ht). session_simpl.
        destruct Hv as (_ & _ & H3 & H4 & H5).
        unfold values_accepted.
        cbn [project_name project_number amount currency reason].
        repeat split; auto.
        -- intros n Hn. inversion Hn. apply or_default_nonempty.
           vm_compute. discriminate.
        -- intros n Hn. subst pnum. destruct n; [discriminate Ht | discriminate].
        -- now apply H5.
        -- now apply H5.
      * rewrite (project_turn_missed _ _ _ _ Hex Ht). exact Hv.
    + rewrite process_request_amount by assumption. unfold amount_turn.
      destruct (extract_amount (lower u)) as [[a c]|x] eqn:Hex; [|exact Hv].
      destruct (amount_truthy a) eqn:Ht; session_simpl; [|exact Hv].
      destruct Hv as (H1 & H2 & _ & _ & H5).
      unfold values_accepted.
      cbn [project_name project_number amount currency reason].
      repeat split; auto.
      * intros x Hx. subst a. simpl in Ht.
        apply float_truthy_pos; auto. eapply extract_amount_nonneg; eassumption.
      * intros x Hx. subst c. eapply extract_amount_currency_nonempty; eassumption.
      * now apply H5.
      * now apply H5.
    + rewrite process_request_reason by assumption. unfold reason_turn.
      destruct (3 <=? length (split (lower u)))%nat eqn:Hlen; session_simpl;
        [|exact Hv].
      destruct Hv as (H1 & H2 & H3 & H4 & _).
      unfold values_accepted.
      cbn [project_name project_number amount currency reason].
      split; [exact H1|]. split; [exact H2|]. split; [exact H3|].
      split; [exact H4|].
      intros t Ht. inversion Ht; subst t.
      split; [exact Haff | now apply Nat.leb_le].
    + rewrite process_request_confirm by assumption. unfold confirm_turn.
      destruct (existsb (pystr_eqb (lower (lower u))) [py "no"; py "cancel"]);
        session_simpl; [exact Hempty | exact Hv].
Qed.

(** X7.  In a conversation that starts in stage [project] with an empty
    request, the request only ever holds values the dialogue accepts: a
    project name and a project number that are not empty, an amount above
    zero, a currency that is not empty, and a reason that has three tokens
    or more and no affirmative token in it. *)
Theorem reachable_values_accepted w :
  reachable w -> values_accepted (request_of (sess w)).
Proof.
  induction 1 as [w Hst Hreq | e u w Hr IH].
  - rewrite Hreq. unfold values_accepted, empty_request; simpl.
    repeat split; discriminate.
  - now apply values_accepted_turn.
Qed.

(** X8.  [extract_amount] never returns an amount below zero: the pattern
    has no sign, so the sign before a number is not read. *)
Theorem extracted_amount_is_not_negative text a c :
  extract_amount text = Ok (Some a, c) -> (0 <= a)%Q.
Proof.
  apply extract_amount_nonneg.
Qed.

End Values.

(** ** What [extract_project_info] finds, and what is stored of it *)

Section ProjectContract.
Context {rt : Runtime}.

Lemma project_name_re_inv_text p s p' s' g' :
  matches true project_name_re p s [] p' s' g' ->
  exists skipped name,
    s = skipped ++ name ++ s' /\ name <> [] /\ g' = [(1%nat, name)] /\
    Forall (fun c => atom_match true name_class c = true) name.
Proof.
  unfold project_name_re, lit. intros M.
  apply matches_Seq_inv in M as (p1 & s1 & g1 & Mo & Mg).
  apply matches_prefix in Mo as Hpre. destruct Hpre as (skipped & -> & _).
  assert (g1 = []).
  { apply matches_Opt_inv in Mo as [Mo | (_ & _ & ->)]; auto.
    apply matches_Seq_inv in Mo as (p2 & s2 & g2 & Ml & Mw).
    apply lit_re_inv in Ml as (-> & _).
    now apply matches_Rep_inv in Mw as (ws & _ & _ & _ & _ & _ & ->). }
  subst g1.
  apply matches_Grp_inv in Mg as (g2 & Mr & ->).
  apply matches_Rep_inv in Mr as (name & -> & Hall & Hlo & _ & -> & ->).
  rewrite consumed_app. exists skipped, name. repeat split; auto.
  intros ->. simpl in Hlo. lia.
Qed.

Lemma project_number_shape text n :
  snd (extract_project_info text) = Some n ->
  exists pfx ds,
    n = pfx ++ ds /\ In pfx [[]; py "PRJ-"; py "P"] /\
    ds <> [] /\ Forall (fun c => isdecimal c = true) ds /\
    occurs_in n text.
Proof.
  unfold extract_project_info. cbn [snd].
  destruct (search false project_number_re text) as [m|] eqn:E;
    [|discriminate].
  intros H. inversion H; subst n.
  apply search_Some in E as (pre & s & s' & -> & _ & [p' M] & Htx & _).
  apply project_number_re_inv in M as (_ & pfx & ds & -> & Hin & Hne & Hds).
  rewrite Htx. rewrite app_assoc, consumed_app.
  exists pfx, ds. repeat split; auto.
  exists pre, s'. now rewrite <- !app_assoc.
Qed.

Lemma project_name_shape text name :
  fst (extract_project_info text) = Some name ->
  name <> [] /\
  Forall (fun c => atom_match true name_class c = true) name /\
  occurs_in name text.
Proof.
  unfold extract_project_info. cbn [fst].
  destruct (search true project_name_re text) as [m|] eqn:E; [|discriminate].
  apply search_Some in E as (pre & s & s' & -> & _ & [p' M] & _).
  apply project_name_re_inv_text in M as (skipped & nm & -> & Hne & Hg & Hall).
  unfold group. rewrite Hg. simpl. intros H. inversion H; subst nm.
  repeat split; auto.
  exists (pre ++ skipped), s'. now rewrite <- !app_assoc.
Qed.

(** X9.  What [extract_project_info] returns is read in the text.  A
    project number is a piece of the text made of one decimal digit or
    more, with "PRJ-" or "P" before the digits when the text has it there.
    A project name is a piece of the text, not empty, made of characters of
    the class of the pattern only (so it has no blank in it). *)
Theorem extract_project_info_reads_the_text text :
  (forall n,
     snd (extract_project_info text) = Some n ->
     exists pfx ds,
       n = pfx ++ ds /\ In pfx [[]; py "PRJ-"; py "P"] /\
       ds <> [] /\ Forall (fun c => isdecimal c = true) ds /\
       occurs_in n text) /\
  (forall name,
     fst (extract_project_info text) = Some name ->
     name <> [] /\
     Forall (fun c => atom_match true name_class c = true) name /\
     occurs_in name text).
Proof.
  split; [apply project_number_shape | apply project_name_shape].
Qed.

(** The lower case of an ASCII text: character by character, and with no
    capital letter left. *)
Lemma lower_ascii_text u :
  ascii_text u ->
  Forall (fun c => c < 128 /\ ascii_isupper c = false) (lower u).
Proof.
  induction 1 as [|c u Hc Hu IH]; [constructor|].
  change (lower (c :: u)) with (lower_char c ++ lower u).
  unfold lower_char. apply N.ltb_lt in Hc as Hb. rewrite Hb.
  simpl. constructor; [|exact IH].
  unfold ascii_lower, ascii_isupper, in_range.
  destruct ((65 <=? c) && (c <=? 90)) eqn:E.
  - apply andb_prop in E as [E1 E2]. apply N.leb_le in E1, E2.
    split; [lia|]. apply andb_false_iff. right. apply N.leb_gt. lia.
  - split; assumption.
Qed.

Lemma Forall_occurs_in (P : char -> Prop) a b :
  occurs_in a b -> Forall P b -> Forall P a.
Proof.
  intros (x & y & ->) H.
  apply Forall_app in H as [_ H]. now apply Forall_app in H as [H _].
Qed.

(** X10.  [process_request] lower-cases the utterance before it looks for
    the project number, so the prefixes "PRJ-" and "P" of the pattern never
    match: for an ASCII utterance with no affirmative token, the project
    number that stage [project] stores is made of ASCII digits only and is
    read in the lower-cased utterance. *)
Theorem stored_project_number_has_no_prefix e u w :
  ascii_text u ->
  stage_of (sess w) = Project ->
  any_affirmative (lower u) = false ->
  let w' := world_of (process_request e u w) in
  stage_of (sess w') = Amount ->
  exists ds,
    project_number (request_of (sess w')) = Some ds /\
    ds <> [] /\ Forall (fun c => ascii_isdigit c = true) ds /\
    occurs_in ds (lower u).
Proof.
  intros Hascii Hst Haff. cbv zeta.
  rewrite (process_request_project e u w Hst Haff).
  destruct (extract_project_info (lower u)) as [pn pnum] eqn:Hex.
  destruct (truthy pnum) eqn:Ht; unfold on_session.
  - rewrite (project_turn_found _ _ _ _ Hex Ht). session_simpl. intros _.
    destruct pnum as [n|]; [|discriminate Ht].
    assert (Hn : snd (extract_project_info (lower u)) = Some n)
      by now rewrite Hex.
    apply project_number_shape in Hn
      as (pfx & ds & -> & Hpfx & Hne & Hds & Hocc).
    pose proof (Forall_occurs_in _ _ _ Hocc (lower_ascii_text u Hascii)) as Hlow.
    assert (pfx = []).
    { destruct Hpfx as [<- | [<- | [<- | []]]]; auto;
        inversion Hlow as [|c l [_ Hup] _]; discriminate Hup. }
    subst pfx. simpl in *. exists ds. repeat split; auto.
    clear - Hds Hlow. induction Hds as [|c ds Hc Hds IH]; constructor.
    + inversion Hlow as [|c' l [Hlt _] _]; subst.
      unfold isdecimal in Hc. apply N.ltb_lt in Hlt. now rewrite Hlt in Hc.
    + apply IH. now inversion Hlow.
  - rewrite (project_turn_missed _ _ _ _ Hex Ht). session_simpl.
    rewrite Hst. discriminate.
Qed.

End ProjectContract.

(** ** The spelling of the currency that is stored *)

Section CurrencySpelling.
Context {rt : Runtime}.

Lemma fold_case_fixed cs :
  Forall (fun c => c < 128 /\ ascii_isupper c = false) cs ->
  map fold_case cs = cs.
Proof.
  induction 1 as [|c cs [Hlt Hup] _ IH]; [reflexivity|].
  simpl. rewrite IH. f_equal.
  unfold fold_case, ascii_lower. apply N.ltb_lt in Hlt. now rewrite Hlt, Hup.
Qed.

(** X11.  The currency is stored as it is spelled in the lower-cased
    utterance, and as "USD" in capitals when the utterance names none: for
    an ASCII utterance with no affirmative token whose amount stage [amount]
    stores, the currency stored is one of "USD", "usd", "eur", "gbp",
    "dollars", "euros" and "pounds". *)
Theorem stored_currency_spelling e u w :
  ascii_text u ->
  stage_of (sess w) = Amount ->
  any_affirmative (lower u) = false ->
  let w' := world_of (process_request e u w) in
  stage_of (sess w') = Reason ->
  exists c,
    currency (request_of (sess w')) = Some c /\ In c stored_currencies.
Proof.
  intros Hascii Hst Haff. cbv zeta.
  rewrite (process_request_amount e u w Hst Haff). unfold amount_turn.
  destruct (extract_amount_cases (lower u))
    as [[_ He] | (pre & num & ws & cur & post & a & Htext & _ & _ & _ & Hcur & _ & _ & He)];
    rewrite He.
  - cbn [amount_truthy]. session_simpl. rewrite Hst. discriminate.
  - destruct (amount_truthy (Some a)); session_simpl;
      [|rewrite Hst; discriminate].
    intros _. eexists. split; [reflexivity|].
    destruct cur as [|c0 cur0]; [now left|].
    destruct Hcur as [Hcur | (tok & Hin & Hfold)]; [discriminate|].
    assert (Hlow : Forall (fun c => c < 128 /\ ascii_isupper c = false)
                          (c0 :: cur0)).
    { apply (Forall_occurs_in _ _ (lower u)); [|now apply lower_ascii_text].
      exists (pre ++ num ++ ws), post. rewrite Htext.
      now rewrite <- !app_assoc. }
    rewrite (fold_case_fixed _ Hlow) in Hfold. rewrite Hfold.
    unfold currency_tokens in Hin. unfold stored_currencies.
    destruct Hin as [<- | [<- | [<- | [<- | [<- | [<- | []]]]]]];
      vm_compute; auto 10.
Qed.

End CurrencySpelling.

(** ** The chat that is drawn *)

Lemma map_injective {A B : Type} (f : A -> B) :
  (forall x y, f x = f y -> x = y) ->
  forall l l', map f l = map f l' -> l = l'.
Proof.
  intros Hf. induction l as [|a l IH]; intros [|b l'] H; simpl in H;
    try discriminate; auto.
  inversion H. f_equal; auto.
Qed.

Lemma chat_line_injective m1 m2 : chat_line m1 = chat_line m2 -> m1 = m2.
Proof.
  destruct m1 as [t1 [|]], m2 as [t2 [|]]; unfold chat_line; simpl sender_of;
    cbn [text]; intros H; vm_compute in H; inversion H; reflexivity.
Qed.

(** X12.  The chat that [display_chat_history] draws tells the transcript:
    it has one line for each message, in order, and two transcripts that
    are drawn the same are the same, senders and texts. *)
Theorem chat_tells_the_transcript ss1 ss2 :
  length (display_chat_history ss1) = length (messages ss1) /\
  (display_chat_history ss1 = display_chat_history ss2 ->
   messages ss1 = messages ss2).
Proof.
  unfold display_chat_history. split; [apply length_map|].
  apply map_injective. exact chat_line_injective.
Qed.

(** ** Runs of the page *)

Section Runs.
Context {rt : Runtime}.

Lemma failed_transcription_tokens available r :
  available = false \/ (exists msg, r = Failed msg) ->
  (3 <=? length (split (lower (transcribe_audio_file available r))))%nat = true.
Proof.
  intros H. destruct available.
  - destruct H as [H | [msg ->]]; [discriminate|].
    unfold transcribe_audio_file. cbn [negb]. rewrite lower_app.
    generalize (lower msg). intros l. vm_compute. reflexivity.
  - vm_compute. reflexivity.
Qed.

(** X13.  A transcription that fails is processed as if the user had said
    the error text.  Take a run in stage [reason] in which an audio file is
    uploaded, "Submit" is not pressed and the microphone is not used.  When
    speech recognition is not installed, or when the recognition raises,
    the text that [transcribe_audio_file] returns has three tokens or more;
    unless it has an affirmative token in it, its lower case is stored as
    the reason of the expense and the stage becomes [confirm].  The text is
    taken without capital sigma, so that [lower] is [str.lower] on it. *)
Theorem failed_transcription_becomes_the_reason available re inp ss d r :
  read_ok re = true ->
  stage_of ss = Reason ->
  submit inp = false ->
  audio_file inp = Some r ->
  record inp = false ->
  available = false \/ (exists msg, r = Failed msg) ->
  sigma_free (transcribe_audio_file available r) ->
  any_affirmative (lower (transcribe_audio_file available r)) = false ->
  let p := main available re inp {| state := Some ss; table := d |} in
  raised p = None /\
  table (after p) = d /\
  exists ss',
    state (after p) = Some ss' /\
    stage_of ss' = Confirm /\
    reason (request_of ss') = Some (lower (transcribe_audio_file available r)).
Proof.
  intros Hread Hst Hsub Haudio Hrec Hfail _ Haff. cbv zeta.
  unfold main. rewrite Hread, Hsub, Haudio, Hrec, andb_false_r.
  cbn [negb state table start_session and_then].
  rewrite process_request_reason by assumption.
  unfold reason_turn. rewrite (failed_transcription_tokens _ _ Hfail).
  session_simpl. cbn [and_then raised_by world_of sess db chat raised after state table].
  repeat split. eexists. repeat split.
Qed.

Lemma and_then_keeps (P : world -> Prop) o f :
  P (world_of o) ->
  (forall w, P w -> P (world_of (f w))) ->
  P (world_of (and_then o f)).
Proof.
  destruct o as [w | x w]; simpl; auto.
Qed.

Ltac not_the_success_message H :=
  let Hs := fresh in
  let Ht := fresh in
  first
    [ assert (Hs := f_equal sender_of H); discriminate Hs
    | assert (Ht := f_equal text H); cbn [text] in Ht;
      vm_compute in Ht; discriminate Ht ].

Ltac success_not_added :=
  session_simpl;
  let Hin := fresh "Hin" in
  intros Hin;
  repeat (apply in_app_or in Hin as [Hin | Hin]);
  try contradiction;
  repeat (destruct Hin as [Hin | Hin];
          [not_the_success_message Hin|]);
  try contradiction.

(** No turn leaves the message of success in the transcript: a submission
    adds it and clears the transcript in the same call, and no other
    message of the assistant is this one. *)
Lemma turn_keeps_no_success e u w :
  ~ In success_message (messages (sess w)) ->
  ~ In success_message (messages (sess (world_of (process_request e u w)))).
Proof.
  intros Hno.
  destruct (any_affirmative (lower u)) eqn:Haff.
  - destruct (stage_of (sess w)) eqn:Hst;
      try (rewrite process_request_absorbed by congruence; success_not_added).
    destruct (db_ok e) eqn:Hdb.
    + rewrite process_request_submit by assumption. simpl. auto.
    + rewrite process_request_submit_fails by assumption. success_not_added.
  - destruct (stage_of (sess w)) eqn:Hst.
    + rewrite process_request_project by assumption.
      destruct (extract_project_info (lower u)) as [pn pnum] eqn:Hex.
      destruct (truthy pnum) eqn:Ht; unfold on_session.
      * rewrite (project_turn_found _ _ _ _ Hex Ht). success_not_added.
      * rewrite (project_turn_missed _ _ _ _ Hex Ht). success_not_added.
    + rewrite process_request_amount by assumption. unfold amount_turn.
      destruct (extract_amount (lower u)) as [[a c]|x].
      * destruct (amount_truthy a); success_not_added.
      * success_not_added.
    + rewrite process_request_reason by assumption. unfold reason_turn.
      destruct (3 <=? length (split (lower u)))%nat; success_not_added.
    + rewrite process_request_confirm by assumption. unfold confirm_turn.
      destruct (existsb (pystr_eqb (lower (lower u))) [py "no"; py "cancel"]);
        success_not_added.
Qed.

(** X14.  The message of success is never drawn.  Whatever the inputs of a
    run of the page are, if the transcript the run starts from has no
    message of success (as at the start of a conversation), the chat the
    run draws has no line of success and the transcript it leaves has no
    message of success either: [process_request] adds the message on a
    submission and empties the transcript in the same call, and the chat is
    drawn from the transcript that the runs before have left. *)
Theorem success_message_is_never_drawn available re inp a :
  no_success (state a) ->
  let p := main available re inp a in
  ~ In (chat_line success_message) (chat p) /\
  no_success (state (after p)).
Proof.
  intros Hno. cbv zeta. unfold main.
  destruct (read_ok re); cbn [negb chat after state].
  - assert (Hstart : ~ In success_message (messages (start_session (state a)))).
    { destruct (state a) as [ss|]; [exact Hno|].
      unfold start_session. success_not_added. }
    split.
    + unfold display_chat_history. intros Hin.
      apply in_map_iff in Hin as (m & Hm & Hin).
      apply chat_line_injective in Hm. subst m. contradiction.
    + cbn [no_success].
      apply (and_then_keeps (fun w => ~ In success_message (messages (sess w)))).
      * apply (and_then_keeps (fun w => ~ In success_message (messages (sess w)))).
        -- destruct (submit inp); [now apply turn_keeps_no_success | exact Hstart].
        -- intros w Hw. destruct (audio_file inp);
             [now apply turn_keeps_no_success | exact Hw].
      * intros w Hw. destruct (available && record inp); [|exact Hw].
        destruct (nonempty _); [now apply turn_keeps_no_success | exact Hw].
  - split; [intros [] | exact Hno].
Qed.

End Runs.

(** ** A bare number as an amount *)

Section BareNumber.
Context {rt : Runtime}.

Lemma amount_re_inv_bnd p s p' s' g' :
  matches true amount_re p s [] p' s' g' ->
  exists num ws cur,
    s = num ++ ws ++ cur ++ s' /\
    number_literal num /\ Forall (fun c => isspace c = true) ws /\
    ((cur = [] /\ g' = [(1%nat, num)]) \/
     (cur <> [] /\ currency_token cur /\ g' = [(2%nat, cur); (1%nat, num)])) /\
    at_boundary (last_char p (num ++ ws ++ cur)) s' = true.
Proof.
  unfold amount_re. intros M.
  apply matches_Seq_inv in M as (p1 & s1 & g1 & Mb & M).
  apply matches_Bnd_inv in Mb as (_ & -> & -> & ->).
  apply matches_Seq_inv in M as (p2 & s2 & g2 & Mn & M).
  apply matches_Grp_inv in Mn as (g1 & Mn & ->).
  apply matches_prefix in Mn as Hp. destruct Hp as (num' & Hs & ->).
  apply number_re_inv in Mn as (-> & num & -> & Hnum).
  apply app_inv_tail in Hs. subst num'.
  apply matches_Seq_inv in M as (p3 & s3 & g3 & Mw & M).
  apply matches_Rep_inv in Mw as (ws & -> & Hws & _ & _ & -> & ->).
  apply matches_Seq_inv in M as (p4 & s4 & g4 & Mc & Mb).
  apply matches_Bnd_inv in Mb as (Hb & -> & -> & ->).
  apply matches_Opt_inv in Mc as [Mc | (-> & -> & ->)].
  - apply matches_prefix in Mc as Hp. destruct Hp as (cur' & Hs & Hp).
    apply matches_Grp_inv in Mc as (g5 & Mc & ->).
    apply currency_re_inv in Mc as (-> & cur & -> & Hne & Hcur).
    apply app_inv_tail in Hs. subst cur'. subst p4.
    rewrite !consumed_app. exists num, ws, cur.
    rewrite !last_char_app. repeat split; auto.
  - rewrite consumed_app. exists num, ws, []. simpl.
    rewrite app_nil_r, last_char_app. repeat split; auto.
Qed.

Lemma digit_facts c :
  ascii_isdigit c = true ->
  isdecimal c = true /\ isword c = true /\ isspace c = false /\
  c <> 46 /\ fold_case c = c /\ 48 <= c <= 57.
Proof.
  unfold ascii_isdigit, in_range. intros H.
  apply andb_prop in H as [H1 H2]. apply N.leb_le in H1, H2.
  assert (Hlt : (c <? 128) = true) by (apply N.ltb_lt; lia).
  assert (Hd : (48 <=? c) && (c <=? 57) = true)
    by (apply andb_true_intro; split; apply N.leb_le; lia).
  unfold isdecimal, isword, isspace, fold_case. rewrite Hlt.
  unfold ascii_isdigit, ascii_isalnum, ascii_isdigit, ascii_isspace,
    ascii_lower, ascii_isupper, in_range.
  rewrite Hd.
  assert (Hup : (65 <=? c) && (c <=? 90) = false)
    by (apply andb_false_iff; left; apply N.leb_gt; lia).
  rewrite Hup.
  split; [reflexivity|]. split; [reflexivity|]. split.
  { apply orb_false_iff.
    split; apply andb_false_iff; right; apply N.leb_gt; lia. }
  split; [lia|]. split; [reflexivity | lia].
Qed.

Lemma currency_token_no_digit c cur :
  ascii_isdigit c = true -> ~ currency_token (c :: cur).
Proof.
  intros Hc (tok & Hin & Hfold).
  apply digit_facts in Hc as (_ & _ & _ & _ & Hf & Hr).
  simpl in Hfold. rewrite Hf in Hfold.
  unfold currency_tokens in Hin.
  destruct Hin as [<- | [<- | [<- | [<- | [<- | [<- | []]]]]]];
    vm_compute in Hfold; inversion Hfold; subst c; lia.
Qed.

Lemma last_char_digit p ds :
  ds <> [] -> Forall (fun c => ascii_isdigit c = true) ds ->
  opt_isword (last_char p ds) = true.
Proof.
  intros Hne Hall. destruct (exists_last Hne) as (l & c & ->).
  rewrite last_char_app. simpl.
  apply Forall_app in Hall as [_ Hc]. inversion Hc; subst.
  now apply digit_facts.
Qed.

Lemma digits_value_some : forall ds acc,
  Forall (fun c => ascii_isdigit c = true) ds ->
  exists n, digits_value acc ds = Some n.
Proof.
  intros ds acc H. apply digits_value_all.
  eapply Forall_impl; [|exact H]. intros c Hc. now apply digit_facts.
Qed.

(** The amount pattern matches a text made of ASCII digits as a whole. *)
Lemma amount_match_of_digits p ds s' g' p' :
  ds <> [] -> Forall (fun c => ascii_isdigit c = true) ds ->
  matches true amount_re p ds [] p' s' g' ->
  s' = [] /\ g' = [(1%nat, ds)].
Proof.
  intros Hne Hall M.
  apply amount_re_inv_bnd in M
    as (num & ws & cur & Hs & Hnum & Hws & Hcur & Hb).
  assert (Hparts : Forall (fun c => ascii_isdigit c = true) num /\
                   Forall (fun c => ascii_isdigit c = true) ws /\
                   Forall (fun c => ascii_isdigit c = true) cur /\
                   Forall (fun c => ascii_isdigit c = true) s').
  { rewrite Hs in Hall. apply Forall_app in Hall as [H1 Hall].
    apply Forall_app in Hall as [H2 Hall].
    apply Forall_app in Hall as [H3 H4]. auto. }
  destruct Hparts as (Hn & Hw & Hc & Hr).
  assert (ws = []).
  { destruct ws as [|c ws]; auto. inversion Hws; inversion Hw; subst.
    apply digit_facts in H5 as (_ & _ & Hsp & _). congruence. }
  subst ws.
  assert (cur = []).
  { destruct cur as [|c cur]; auto. destruct Hcur as [[Hcur _] | (_ & Hcur & _)];
      [discriminate|].
    inversion Hc; subst. now apply currency_token_no_digit in Hcur. }
  subst cur. simpl in Hs, Hb. rewrite app_nil_r in Hb.
  assert (Hnne : num <> []).
  { destruct Hnum as (d & f & Hd & _ & _ & _ & [-> | [_ ->]]); auto.
    destruct d; [congruence | discriminate]. }
  assert (s' = []).
  { destruct s' as [|c s']; auto. exfalso.
    unfold at_boundary in Hb. rewrite (last_char_digit p num Hnne Hn) in Hb.
    inversion Hr; subst. simpl in Hb.
    apply digit_facts in H1 as (_ & Hw' & _). rewrite Hw' in Hb. discriminate. }
  subst s'. rewrite app_nil_r in Hs. subst num.
  destruct Hcur as [[_ ->] | (Hx & _)]; [auto | congruence].
Qed.

(** X15.  A text made of ASCII digits only, which denote an integer [n] of
    at most 2^53 (up to there a float holds every integer), is read as the
    amount [n], in "USD". *)
Theorem bare_number_is_an_amount_in_usd ds n :
  ds <> [] ->
  Forall (fun c => ascii_isdigit c = true) ds ->
  digits_value 0 ds = Some n ->
  n <= float_exact_bound ->
  extract_amount ds = Ok (Some (Qred (Z.of_N n # 1)), Some (py "USD")).
Proof.
  intros Hne Hall Hn _.
  assert (Hdec : Forall (fun c => isdecimal c = true) ds).
  { eapply Forall_impl; [|exact Hall]. intros c Hc. now apply digit_facts. }
  assert (Hfloat : py_float ds = Ok (Qred (Z.of_N n # 1))).
  { unfold py_float.
    pose proof (split_dot_digits ds [] Hdec) as Hs. simpl in Hs.
    rewrite !app_nil_r in Hs. rewrite Hs. rewrite app_nil_r, Hn.
    destruct ds; [congruence | reflexivity]. }
  unfold extract_amount, search.
  destruct ds as [|d ds']; [congruence|].
  assert (Hhere : match_here true amount_re 0 None (d :: ds') <> None).
  { apply (match_here_complete true amount_re 0 None (d :: ds')
             (last_char None (d :: ds')) [] [(1%nat, consumed (d :: ds') [])]).
    unfold amount_re.
    eapply M_Seq.
    { apply M_Bnd. unfold at_boundary. simpl.
      inversion Hall; subst.
      match goal with H : ascii_isdigit d = true |- _ =>
        apply digit_facts in H as (_ & Hw & _); now rewrite Hw end. }
    eapply M_Seq.
    { apply M_Grp. unfold number_re. eapply M_Seq.
      - rewrite <- (app_nil_r (d :: ds')) at 1.
        apply (M_Rep true ADigit 1 None (d :: ds') None [] []);
          [exact Hdec | simpl; lia | exact I].
      - apply M_OptNone. }
    eapply M_Seq.
    { apply (M_Rep true ASpace 0 None [] _ [] _); [constructor | simpl; lia | exact I]. }
    eapply M_Seq; [apply M_OptNone|].
    apply M_Bnd. unfold at_boundary. simpl hd_error.
    rewrite (last_char_digit None (d :: ds')); auto. }
  simpl search_from.
  destruct (match_here true amount_re 0 None (d :: ds')) as [m|] eqn:E;
    [|congruence].
  apply match_here_sound in E as (p' & s' & M & _ & _).
  apply amount_match_of_digits in M as [_ Hg]; auto.
  unfold group. rewrite Hg. simpl. rewrite Hfloat. reflexivity.
Qed.

End BareNumber.

(** ** A write that fails ends the run *)

Section FailedRun.
Context {rt : Runtime}.

(** X16.  When the write of a submission fails, the exception ends the run
    of the page: the audio file that is uploaded and the microphone are not
    processed in that run, whatever they hold.  The state is the session
    with the typed text added to the transcript, still in stage [confirm]
    with its request, and the table is as it was. *)
Theorem failed_write_ends_the_run available re inp ss d :
  read_ok re = true ->
  stage_of ss = Confirm ->
  submit inp = true ->
  any_affirmative (lower (user_input inp)) = true ->
  db_ok (env_submit re) = false ->
  main available re inp {| state := Some ss; table := d |} =
    {| chat := display_chat_history ss;
       raised := Some OperationalError;
       after :=
         {| state :=
              Some {| stage_of := Confirm;
                      request_of := request_of ss;
                      messages :=
                        messages ss ++
                        [{| text := user_input inp; sender_of := User |}] |};
            table := d |} |}.
Proof.
  intros Hread Hst Hsub Haff Hdb.
  unfold main. rewrite Hread, Hsub.
  cbn [negb state table start_session].
  rewrite process_request_submit_fails by assumption.
  cbn [and_then raised_by world_of]. session_simpl. rewrite Hst. reflexivity.
Qed.

End FailedRun.

(** ** The affirmative test is a test of occurrence *)

Lemma starts_with_iff p s : starts_with p s = true <-> exists y, s = p ++ y.
Proof.
  revert s. induction p as [|a p IH]; intros s; simpl.
  - split; eauto.
  - destruct s as [|b s].
    + split; [discriminate | intros [y H]; discriminate H].
    + rewrite andb_true_iff, N.eqb_eq, IH. split.
      * intros [-> [y ->]]. now exists y.
      * intros [y H]. inversion H; subst. eauto.
Qed.

Lemma contains_iff p s : contains p s = true <-> occurs_in p s.
Proof.
  induction s as [|b s IH]; simpl.
  - rewrite orb_false_r, starts_with_iff. split.
    + intros [y H]. now exists [], y.
    + intros (x & y & H). symmetry in H.
      apply app_eq_nil in H as [-> H]. exists y. now rewrite H.
  - rewrite orb_true_iff, starts_with_iff, IH. split.
    + intros [[y H] | (x & y & H)].
      * now exists [], y.
      * exists (b :: x), y. now rewrite H.
    + intros (x & y & H). destruct x as [|c x].
      * left. now exists y.
      * right. inversion H; subst. now exists x, y.
Qed.

(** X17.  The affirmative test looks for the tokens anywhere in the text,
    inside words too: it answers yes exactly when one of "yes", "sure",
    "ok", "affirmative", "yep", "yeah", "proceed" occurs in the text. *)
Theorem affirmative_means_a_token_occurs t :
  any_affirmative t = true <->
  exists tok, In tok affirmative_responses /\ occurs_in tok t.
Proof.
  unfold any_affirmative. rewrite existsb_exists.
  split; intros (tok & Hin & H); exists tok; split; auto; now apply contains_iff.
Qed.


(** ** The further properties at concrete sessions *)

Lemma three_turns_reachable : reachable (run three_turns at_project).
Proof.
  unfold three_turns. cbn [run]. do 3 apply reach_turn.
  apply reach_start; reflexivity.
Qed.

Lemma written_rows_at_yes :
  reachable (run three_turns at_project) /\
  (db (world_of (process_request sample_env (py "yes") (run three_turns at_project)))
     = db (run three_turns at_project) \/
   exists r,
     db (world_of (process_request sample_env (py "yes") (run three_turns at_project)))
       = db (run three_turns at_project) ++ [r] /\
     row_complete r /\ row_status r = py "Pending" /\
     row_timestamp r = now sample_env).
Proof.
  split; [exact three_turns_reachable|].
  exact (written_rows_are_complete sample_env (py "yes") _ three_turns_reachable).
Defined.

Lemma no_row_after_three_turns :
  stage_of (sess at_project) = Project /\
  (length three_turns <= 3)%nat /\
  db (run three_turns at_project) = db at_project.
Proof.
  split; [reflexivity|]. split; [simpl; lia|].
  apply (no_row_before_four_utterances three_turns at_project);
    [reflexivity | simpl; lia].
Defined.

Lemma empty_utterance_changes_nothing :
  (forall c, In c (lower []) -> isdecimal c = false) /\
  any_affirmative (lower []) = false /\
  (length (split (lower [])) < 3)%nat /\
  ~ In (lower (lower [])) [py "no"; py "cancel"] /\
  exists prompt,
    process_request sample_env [] at_amount =
      Returned
        {| sess :=
             {| stage_of := stage_of (sess at_amount);
                request_of := request_of (sess at_amount);
                messages :=
                  messages (sess at_amount) ++
                  [{| text := []; sender_of := User |};
                   {| text := prompt; sender_of := Assistant |}] |};
           db := db at_amount |}.
Proof.
  assert (H1 : forall c, In c (lower []) -> isdecimal c = false)
    by (intros c []).
  assert (H2 : any_affirmative (lower []) = false) by reflexivity.
  assert (H3 : (length (split (lower [])) < 3)%nat) by (vm_compute; lia).
  assert (H4 : ~ In (lower (lower [])) [py "no"; py "cancel"])
    by (vm_compute; intros [H | [H | []]]; discriminate H).
  split; [exact H1|]. split; [exact H2|]. split; [exact H3|].
  split; [exact H4|].
  exact (miss_changes_nothing sample_env [] at_amount H1 H2 H3 H4).
Defined.

Lemma values_accepted_after_three_turns :
  reachable (run three_turns at_project) /\
  values_accepted (request_of (sess (run three_turns at_project))).
Proof.
  split; [exact three_turns_reachable|].
  exact (reachable_values_accepted _ three_turns_reachable).
Defined.

Lemma minus_250_is_read_as_250 :
  extract_amount (py "-250") = Ok (Some 250%Q, Some (py "USD")) /\
  (0 <= 250)%Q.
Proof.
  assert (H : extract_amount (py "-250") = Ok (Some 250%Q, Some (py "USD")))
    by (vm_compute; reflexivity).
  split; [exact H|].
  exact (extracted_amount_is_not_negative (py "-250") 250%Q (Some (py "USD")) H).
Defined.

Lemma project_info_of_prj_4021 :
  (forall n,
     snd (extract_project_info (py "see PRJ-4021")) = Some n ->
     exists pfx ds,
       n = pfx ++ ds /\ In pfx [[]; py "PRJ-"; py "P"] /\
       ds <> [] /\ Forall (fun c => isdecimal c = true) ds /\
       occurs_in n (py "see PRJ-4021")) /\
  (forall name,
     fst (extract_project_info (py "see PRJ-4021")) = Some name ->
     name <> [] /\
     Forall (fun c => atom_match true name_class c = true) name /\
     occurs_in name (py "see PRJ-4021")).
Proof.
  exact (extract_project_info_reads_the_text (py "see PRJ-4021")).
Defined.

Lemma ascii_text_of_bool t :
  forallb (fun c => c <? 128) t = true -> ascii_text t.
Proof.
  intros H. apply Forall_forall. intros c Hin.
  rewrite forallb_forall in H. apply N.ltb_lt. now apply H.
Qed.

Lemma prefix_is_lost_at_prj_4021 :
  ascii_text (py "PRJ-4021") /\
  stage_of (sess at_project) = Project /\
  any_affirmative (lower (py "PRJ-4021")) = false /\
  stage_of (sess (world_of (process_request sample_env (py "PRJ-4021") at_project)))
    = Amount /\
  exists ds,
    project_number (request_of (sess (world_of
      (process_request sample_env (py "PRJ-4021") at_project)))) = Some ds /\
    ds <> [] /\ Forall (fun c => ascii_isdigit c = true) ds /\
    occurs_in ds (lower (py "PRJ-4021")).
Proof.
  assert (H1 : ascii_text (py "PRJ-4021"))
    by (apply ascii_text_of_bool; vm_compute; reflexivity).
  assert (H3 : any_affirmative (lower (py "PRJ-4021")) = false)
    by (vm_compute; reflexivity).
  assert (H4 : stage_of (sess (world_of
            (process_request sample_env (py "PRJ-4021") at_project))) = Amount)
    by (vm_compute; reflexivity).
  split; [exact H1|]. split; [reflexivity|]. split; [exact H3|].
  split; [exact H4|].
  exact (stored_project_number_has_no_prefix
           sample_env (py "PRJ-4021") at_project H1 eq_refl H3 H4).
Defined.

Lemma currency_of_300_eur :
  ascii_text (py "300 EUR") /\
  stage_of (sess at_amount) = Amount /\
  any_affirmative (lower (py "300 EUR")) = false /\
  stage_of (sess (world_of (process_request sample_env (py "300 EUR") at_amount)))
    = Reason /\
  exists c,
    currency (request_of (sess (world_of
      (process_request sample_env (py "300 EUR") at_amount)))) = Some c /\
    In c stored_currencies.
Proof.
  assert (H1 : ascii_text (py "300 EUR"))
    by (apply ascii_text_of_bool; vm_compute; reflexivity).
  assert (H3 : any_affirmative (lower (py "300 EUR")) = false)
    by (vm_compute; reflexivity).
  assert (H4 : stage_of (sess (world_of
            (process_request sample_env (py "300 EUR") at_amount))) = Reason)
    by (vm_compute; reflexivity).
  split; [exact H1|]. split; [reflexivity|]. split; [exact H3|].
  split; [exact H4|].
  exact (stored_currency_spelling sample_env (py "300 EUR") at_amount
           H1 eq_refl H3 H4).
Defined.

Lemma unavailable_recognition_at_reason :
  read_ok sample_run = true /\
  stage_of (sess at_reason) = Reason /\
  submit uploaded_audio = false /\
  audio_file uploaded_audio = Some (Recognized (py "team lunch")) /\
  record uploaded_audio = false /\
  (false = false \/ exists msg, Recognized (py "team lunch") = Failed msg) /\
  sigma_free (transcribe_audio_file false (Recognized (py "team lunch"))) /\
  any_affirmative
    (lower (transcribe_audio_file false (Recognized (py "team lunch")))) = false /\
  raised (main false sample_run uploaded_audio
            {| state := Some (sess at_reason); table := [] |}) = None /\
  table (after (main false sample_run uploaded_audio
                  {| state := Some (sess at_reason); table := [] |})) = [] /\
  exists ss',
    state (after (main false sample_run uploaded_audio
                    {| state := Some (sess at_reason); table := [] |})) = Some ss' /\
    stage_of ss' = Confirm /\
    reason (request_of ss') =
      Some (lower (transcribe_audio_file false (Recognized (py "team lunch")))).
Proof.
  assert (H7 : any_affirmative
    (lower (transcribe_audio_file false (Recognized (py "team lunch")))) = false)
    by (vm_compute; reflexivity).
  assert (H6 : sigma_free (transcribe_audio_file false (Recognized (py "team lunch"))))
    by (apply sigma_free_ascii; vm_compute; reflexivity).
  split; [reflexivity|]. split; [reflexivity|]. split; [reflexivity|].
  split; [reflexivity|]. split; [reflexivity|]. split; [now left|].
  split; [exact H6|]. split; [exact H7|].
  exact (failed_transcription_becomes_the_reason
           false sample_run uploaded_audio (sess at_reason) []
           (Recognized (py "team lunch"))
           eq_refl eq_refl eq_refl eq_refl eq_refl (or_introl eq_refl) H6 H7).
Defined.

Lemma success_message_not_drawn_at_yes :
  no_success (state {| state := Some (sess at_confirm); table := [] |}) /\
  ~ In (chat_line success_message)
       (chat (main true sample_run typed_yes
                {| state := Some (sess at_confirm); table := [] |})) /\
  no_success
    (state (after (main true sample_run typed_yes
                     {| state := Some (sess at_confirm); table := [] |}))).
Proof.
  assert (H1 : no_success (state {| state := Some (sess at_confirm); table := [] |})).
  { intros Hin. vm_compute in Hin.
    repeat (destruct Hin as [Hin | Hin]; [discriminate Hin|]). exact Hin. }
  split; [exact H1|].
  exact (success_message_is_never_drawn true sample_run typed_yes
           {| state := Some (sess at_confirm); table := [] |} H1).
Defined.

Lemma amount_of_300 :
  py "300" <> [] /\
  Forall (fun c => ascii_isdigit c = true) (py "300") /\
  digits_value 0 (py "300") = Some 300 /\
  300 <= float_exact_bound /\
  extract_amount (py "300") = Ok (Some (Qred (Z.of_N 300 # 1)), Some (py "USD")).
Proof.
  assert (H1 : py "300" <> []) by (vm_compute; discriminate).
  assert (H2 : Forall (fun c => ascii_isdigit c = true) (py "300"))
    by (vm_compute; repeat constructor).
  assert (H3 : digits_value 0 (py "300") = Some 300) by (vm_compute; reflexivity).
  assert (H4 : 300 <= float_exact_bound) by (vm_compute; discriminate).
  split; [exact H1|]. split; [exact H2|]. split; [exact H3|]. split; [exact H4|].
  exact (bare_number_is_an_amount_in_usd (py "300") 300 H1 H2 H3 H4).
Defined.

Lemma failed_write_ends_the_run_at_yes :
  read_ok failing_run = true /\
  stage_of (sess at_confirm) = Confirm /\
  submit typed_yes = true /\
  any_affirmative (lower (user_input typed_yes)) = true /\
  db_ok (env_submit failing_run) = false /\
  main true failing_run typed_yes {| state := Some (sess at_confirm); table := [] |} =
    {| chat := display_chat_history (sess at_confirm);
       raised := Some OperationalError;
       after :=
         {| state :=
              Some {| stage_of := Confirm;
                      request_of := request_of (sess at_confirm);
                      messages :=
                        messages (sess at_confirm) ++
                        [{| text := user_input typed_yes; sender_of := User |}] |};
            table := [] |} |}.
Proof.
  assert (H4 : any_affirmative (lower (user_input typed_yes)) = true)
    by (vm_compute; reflexivity).
  split; [reflexivity|]. split; [reflexivity|]. split; [reflexivity|].
  split; [exact H4|]. split; [reflexivity|].
  exact (failed_write_ends_the_run true failing_run typed_yes (sess at_confirm) []
           eq_refl eq_refl eq_refl H4 eq_refl).
Defined.
